(** * lotus-storage-miner [run]: the daemon lifecycle of [runCmd.Action]

    A shallow embedding of [cmd/lotus-storage-miner/run.go]: the bootstrap
    sequence, the authenticated HTTP stack, the signal-driven shutdown
    goroutine and the pledge-sector polling goroutine.

    The collaborators ([lcli], [repo], [node], [manet], the full node's RPC
    client) are reached through a record of answers, the {e world}: every
    call the code makes is recorded in a trace, in program order, and its
    answer is read from the world. *)

From Stdlib Require Import ZArith List String Ascii Bool Lia.
From Stdlib Require Import DecimalString.
Import ListNotations.
Local Open Scope string_scope.
Local Open Scope Z_scope.

(** ** Go values *)

Module Go.

(** Go's [int] on the 64-bit platforms the miner is built for: two's
    complement, arithmetic wraps around. *)
Definition int_bits : Z := 64.

Definition int_wrap (z : Z) : Z :=
  (z + 2 ^ (int_bits - 1)) mod 2 ^ int_bits - 2 ^ (int_bits - 1).

Definition int_add (a b : Z) : Z := int_wrap (a + b).
Definition int_sub (a b : Z) : Z := int_wrap (a - b).

Definition in_int (z : Z) : Prop :=
  - 2 ^ (int_bits - 1) <= z < 2 ^ (int_bits - 1).

(** [strings.HasPrefix]. *)
Fixpoint HasPrefix (s p : string) {struct p} : bool :=
  match p with
  | EmptyString => true
  | String b p' =>
      match s with
      | EmptyString => false
      | String a s' => Ascii.eqb a b && HasPrefix s' p'
      end
  end.

(** [strings.HasSuffix]. *)
Definition HasSuffix (s p : string) : bool :=
  let n := String.length s in
  let m := String.length p in
  (m <=? n)%nat && String.eqb (String.substring (n - m) m s) p.

(** Substring test, used to say that a message {e names} a value. *)
Fixpoint Contains (s sub : string) : bool :=
  HasPrefix s sub ||
  match s with
  | EmptyString => false
  | String _ s' => Contains s' sub
  end.

(** [strconv.Itoa]. *)
Definition Itoa (z : Z) : string := NilZero.string_of_int (Z.to_int z).

Fixpoint Join (sep : string) (l : list string) : string :=
  match l with
  | [] => ""
  | [x] => x
  | x :: l' => x ++ sep ++ Join sep l'
  end.

(** The elements of a slash-separated path: [Split "/a//b" ""] is
    [[""; "a"; ""; "b"]]. *)
Fixpoint Split (s : string) (cur : string) : list string :=
  match s with
  | EmptyString => [cur]
  | String c s' =>
      if Ascii.eqb c "/" then cur :: Split s' EmptyString
      else Split s' (cur ++ String c EmptyString)
  end.

(** The elements [path.Clean] keeps on a rooted path: empty and [.]
    elements are dropped, [..] removes the element before it, and a [..]
    at the root is dropped. *)
Fixpoint clean_elements (elems : list string) (kept : list string) : list string :=
  match elems with
  | [] => rev kept
  | e :: elems' =>
      if String.eqb e "" then clean_elements elems' kept
      else if String.eqb e "." then clean_elements elems' kept
      else if String.eqb e ".." then clean_elements elems' (tl kept)
      else clean_elements elems' (e :: kept)
  end.

(** [path.Clean] on a rooted path: the shortest equivalent path, without
    a trailing slash unless it is the root. *)
Definition path_Clean (p : string) : string :=
  String "/" (Join "/" (clean_elements (Split p EmptyString) [])).

(** [fmt.Sprintf] on the verbs the file uses ([%s], [%d], [%w] through
    [xerrors.Errorf]).  An operand is given by its Go type name and its
    printed form.  A verb consumes the next operand, a verb without an
    operand prints [%!v(MISSING)], and operands no verb consumed are
    appended as [%!(EXTRA type=value, ...)]. *)
Definition extra (args : list (string * string)) : string :=
  match args with
  | [] => ""
  | _ => "%!(EXTRA " ++ Join ", " (map (fun a => fst a ++ "=" ++ snd a) args) ++ ")"
  end.

Fixpoint Sprintf (format : string) (args : list (string * string)) : string :=
  match format with
  | EmptyString => extra args
  | String "%" EmptyString => "%!(NOVERB)" ++ extra args
  | String "%" (String verb rest) =>
      if Ascii.eqb verb "%" then String "%" (Sprintf rest args)
      else match args with
           | a :: args' => snd a ++ Sprintf rest args'
           | [] => "%!" ++ String verb "(MISSING)" ++ Sprintf rest []
           end
  | String c rest => String c (Sprintf rest args)
  end.

End Go.

(** ** Errors and log lines *)

(** [api.Version]: the field the command reads. *)
Record Version := { APIVersion : Z }.

(** Operands of a format call, and errors: either an error a collaborator
    returned (its dynamic type and its text) or one built here by
    [xerrors.Errorf]. *)
Inductive error : Type :=
| ExtErr (ty msg : string)
| Errorf (format : string) (args : list fmtarg)
with fmtarg : Type :=
| AString (s : string)
| AInt (n : Z)
| AVersion (v : Version)
| AError (e : error).

(** The dynamic type [fmt] prints for an operand it has no verb for.
    [xerrors.Errorf] builds a [*wrapError] for a format ending in [: %w]
    and a [*noWrapError] otherwise. *)
Definition go_type (a : fmtarg) : string :=
  match a with
  | AString _ => "string"
  | AInt _ => "int"
  | AVersion _ => "api.Version"
  | AError (ExtErr ty _) => ty
  | AError (Errorf format _) =>
      if Go.HasSuffix format ": %w" then "*xerrors.wrapError"
      else "*xerrors.noWrapError"
  end.

Section Messages.

(** [api.Version]'s [String] method is declared outside this file. *)
Variable Version_String : Version -> string.

(** [err.Error()]. *)
Fixpoint Error (e : error) : string :=
  match e with
  | ExtErr _ msg => msg
  | Errorf format args =>
      Go.Sprintf format
        (map (fun a =>
                (go_type a,
                 match a with
                 | AString s => s
                 | AInt n => Go.Itoa n
                 | AVersion v => Version_String v
                 | AError e' => Error e'
                 end)) args)
  end.

End Messages.

Inductive result (A : Type) : Type :=
| Ok (a : A)
| Err (e : error).
Arguments Ok {A} a.
Arguments Err {A} e.

(** ** The trace of a run *)

Inductive Level := Info | Warn | Error_.

(** Multiaddrs are carried in their text form, [/ip4/127.0.0.1/tcp/2345]. *)
Definition Multiaddr := string.

(** The listener [manet.Listen] returns, with the address it is bound to. *)
Record Listener := { lst_addr : Multiaddr }.

Inductive Task := ShutdownTask | PledgeTask.

(** What a run does to the outside, in program order. *)
Inductive Event : Type :=
| Log (lvl : Level) (format : string) (args : list fmtarg)
| Setenv (key value : string)
| GetFullNodeAPI
| ncloser
| NodeApiVersion
| SyncWait
| NewFS (path : string)
| RepoExists
| NodeNew
| NewMultiaddr (s : string)
| SetAPIEndpoint (ma : Multiaddr)
| APIEndpoint
| NetAddrsListen
| NetConnect (addrs : list Multiaddr)
| Listen (endpoint : Multiaddr)
| Go_ (t : Task)
| SignalNotify
| Serve (lst : Listener)
| NodeStop
| SrvShutdown
| GetStorageMinerAPI
| closer
| WorkerStats_
| PledgeSector.

(** ** The bootstrap monad: repository state, trace, early return *)

(** The part of the storage repository the command reads and writes: the
    persisted API endpoint. *)
Record State := {
  repo_endpoint : option Multiaddr;
  trace : list Event
}.

Definition M (A : Type) : Type := State -> result A * State.

Definition ret {A} (a : A) : M A := fun s => (Ok a, s).

Definition fail {A} (e : error) : M A := fun s => (Err e, s).

Definition bind {A B} (m : M A) (k : A -> M B) : M B :=
  fun s =>
    match m s with
    | (Ok a, s') => k a s'
    | (Err e, s') => (Err e, s')
    end.

Declare Scope run_scope.
Delimit Scope run_scope with run.
Notation "x <- m ;; k" := (bind m (fun x => k))
  (at level 61, m at next level, right associativity) : run_scope.
Notation "m ;;; k" := (bind m (fun _ => k))
  (at level 61, right associativity) : run_scope.

Definition emit (e : Event) : M unit :=
  fun s => (Ok tt, {| repo_endpoint := repo_endpoint s; trace := (trace s ++ [e])%list |}).

(** [if err != nil { return err }] on a call that returns a value. *)
Definition call {A} (e : Event) (answer : result A) : M A :=
  fun s =>
    (answer, {| repo_endpoint := repo_endpoint s; trace := (trace s ++ [e])%list |}).

(** The same on a call that returns only an error. *)
Definition call_ (e : Event) (answer : option error) : M unit :=
  call e (match answer with Some err => Err err | None => Ok tt end).

(** [defer d()]: [d] runs when the body returns, with or without an error. *)
Definition defer {A} (d : Event) (body : M A) : M A :=
  fun s =>
    let (r, s') := body s in
    (r, {| repo_endpoint := repo_endpoint s'; trace := (trace s' ++ [d])%list |}).

Definition when (b : bool) (m : M unit) : M unit :=
  if b then m else ret tt.

Definition log (lvl : Level) (format : string) (args : list fmtarg) : M unit :=
  emit (Log lvl format args).

(** ** The command line and the collaborators *)

(** [cli.Context], on the flags [Action] reads.  [api] is [Some] when the
    flag was given on the command line ([IsSet]); its declared default is
    ["2345"]. *)
Record Context := {
  enable_gpu_proving : bool;
  nosync : bool;
  pledge_sector : bool;
  api : option string;
  FlagStorageRepo : string
}.

Definition IsSet_api (cctx : Context) : bool :=
  match api cctx with Some _ => true | None => false end.

Definition String_api (cctx : Context) : string :=
  match api cctx with Some s => s | None => "2345" end.

(** The answers of the collaborators during one run of [Action], and the
    constant [build.APIVersion] of the local build. *)
Record World := {
  build_APIVersion : Z;
  w_GetFullNodeAPI : option error;
  w_Version : result Version;
  w_SyncWait : option error;
  w_NewFS : option error;
  w_Exists : result bool;
  w_NewMultiaddr : string -> option error;
  w_SetAPIEndpoint : option error;
  w_construct : option error;
  w_APIEndpoint : option error;
  w_NetAddrsListen : result (list Multiaddr);
  w_NetConnect : option error;
  w_Listen : Multiaddr -> option error;
  w_Serve : option error
}.

(** [multiaddr.NewMultiaddr]: the parsed address, or the parser's error. *)
Definition multiaddr_NewMultiaddr (w : World) (s : string) : M Multiaddr :=
  call (NewMultiaddr s)
       (match w_NewMultiaddr w s with Some err => Err err | None => Ok s end).

Module repo.

(** Modelled from the spec: the repository collaborator's
    [SetAPIEndpoint(address) -> error], which persists the endpoint. *)
Definition SetAPIEndpoint (w : World) (ma : Multiaddr) : M unit :=
  fun s =>
    let tr := (trace s ++ [SetAPIEndpoint ma])%list in
    match w_SetAPIEndpoint w with
    | Some err => (Err err, {| repo_endpoint := repo_endpoint s; trace := tr |})
    | None => (Ok tt, {| repo_endpoint := Some ma; trace := tr |})
    end.

Definition ErrNoAPIEndpoint : error :=
  ExtErr "*errors.errorString" "API not running (no endpoint)".

(** Modelled from the spec: the repository collaborator's
    [GetAPIEndpoint() -> address], which reads the persisted endpoint. *)
Definition APIEndpoint (w : World) : M Multiaddr :=
  fun s =>
    let s' := {| repo_endpoint := repo_endpoint s; trace := (trace s ++ [APIEndpoint])%list |} in
    match w_APIEndpoint w with
    | Some err => (Err err, s')
    | None =>
        match repo_endpoint s with
        | Some ma => (Ok ma, s')
        | None => (Err ErrNoAPIEndpoint, s')
        end
    end.

End repo.

Module node.

Inductive Settings := mkSettings.

Inductive Key := SetApiEndpointKey | FullNodeKey.

(** What an override binds: a function run on the locked repository, or
    the full node's client. *)
Inductive Binding :=
| OnLockedRepo (f : M unit)
| FullNodeClient.

Inductive Option :=
| StorageMiner
| Online
| Repo
| ApplyIf (check : Settings -> bool) (opt : Option)
| Override (key : Key) (value : Binding).

(** Modelled from the spec: the NodeBootstrapper's override bindings,
    [node.ApplyIf] and [node.Override]: "an endpoint override binding is
    only applied when the corresponding invocation option was explicitly
    set"; an override that fails fails the bootstrap. *)
Fixpoint apply (s : Settings) (opt : Option) : M unit :=
  match opt with
  | ApplyIf check opt' => if check s then apply s opt' else ret tt
  | Override SetApiEndpointKey (OnLockedRepo f) => f
  | _ => ret tt
  end.

Fixpoint applyAll (s : Settings) (opts : list Option) : M unit :=
  match opts with
  | [] => ret tt
  | opt :: opts' => bind (apply s opt) (fun _ => applyAll s opts')
  end.

(** Modelled from the spec: [node.New], the NodeBootstrapper: applies the
    override bindings, then constructs the node's subsystems; "any
    override application error, or internal subsystem construction
    error" fails it. *)
Definition New (w : World) (opts : list Option) : M unit :=
  bind (emit NodeNew) (fun _ =>
  bind (applyAll mkSettings opts) (fun _ =>
  match w_construct w with
  | Some err => fail err
  | None => ret tt
  end)).

End node.

(** ** [runCmd.Action] *)

Local Open Scope run_scope.

Definition version_mismatch (w : World) : error :=
  Errorf "lotus-daemon API version doesn't match: local: "
         [AVersion {| APIVersion := build_APIVersion w |}].

Definition repo_not_initialized (storageRepoPath : string) : error :=
  Errorf "repo at '%s' is not initialized, run 'lotus-storage-miner init' to set it up"
         [AString storageRepoPath].

Definition Action (cctx : Context) (w : World) : M unit :=
  when (negb (enable_gpu_proving cctx)) (emit (Setenv "BELLMAN_NO_GPU" "true")) ;;;
  call_ GetFullNodeAPI (w_GetFullNodeAPI w) ;;;
  defer ncloser (
    v <- call NodeApiVersion (w_Version w) ;;
    (if negb (APIVersion v =? build_APIVersion w)
     then fail (version_mismatch w) else ret tt) ;;;
    log Info "Checking full node sync status" [] ;;;
    when (negb (nosync cctx))
      (fun s => match call_ SyncWait (w_SyncWait w) s with
                | (Err err, s') => (Err (Errorf "sync wait: %w" [AError err]), s')
                | ok => ok
                end) ;;;
    let storageRepoPath := FlagStorageRepo cctx in
    call_ (NewFS storageRepoPath) (w_NewFS w) ;;;
    ok <- call RepoExists (w_Exists w) ;;
    (if negb ok then fail (repo_not_initialized storageRepoPath) else ret tt) ;;;
    node.New w
      [ node.StorageMiner; node.Online; node.Repo;
        node.ApplyIf (fun _ => IsSet_api cctx)
          (node.Override node.SetApiEndpointKey
             (node.OnLockedRepo
                (apima <- multiaddr_NewMultiaddr w
                            ("/ip4/127.0.0.1/tcp/" ++ String_api cctx) ;;
                 repo.SetAPIEndpoint w apima)));
        node.Override node.FullNodeKey node.FullNodeClient ] ;;;
    endpoint <- repo.APIEndpoint w ;;
    remoteAddrs <- call NetAddrsListen (w_NetAddrsListen w) ;;
    call_ (NetConnect remoteAddrs) (w_NetConnect w) ;;;
    log Info "Remote version %s" [AVersion v] ;;;
    (fun s => match call_ (Listen endpoint) (w_Listen w endpoint) s with
              | (Err err, s') => (Err (Errorf "could not listen: %w" [AError err]), s')
              | ok => ok
              end) ;;;
    let lst := {| lst_addr := endpoint |} in
    emit (Go_ ShutdownTask) ;;;
    emit SignalNotify ;;;
    when (pledge_sector cctx) (emit (Go_ PledgeTask)) ;;;
    call_ (Serve lst) (w_Serve w)).

(** A run starts on the repository as it was persisted, with nothing done. *)
Definition run (cctx : Context) (w : World) (persisted : option Multiaddr)
  : result unit * State :=
  Action cctx w {| repo_endpoint := persisted; trace := [] |}.

(** ** The HTTP stack: [mux] behind [auth.Handler] *)

Record Request := {
  URL_Path : string;
  token : string
}.

(** The three handlers the command registers. *)
Inductive Handler :=
| rpcServer
| ServeRemote
| DefaultServeMux.

Inductive HttpEvent :=
| AuthVerify (tok : string)
| WriteHeader (status : Z)
| Redirect (location : string)
| ServeHTTP (h : Handler) (r : Request).

Module mux.

(** [Router.Handle(path, h)] matches the whole path,
    [Router.PathPrefix(tpl)] a prefix of it. *)
Inductive Matcher :=
| Path (tpl : string)
| PathPrefix (tpl : string).

Record Route := {
  matcher : Matcher;
  handler : Handler
}.

Definition matches (m : Matcher) (path : string) : bool :=
  match m with
  | Path tpl => String.eqb path tpl
  | PathPrefix tpl => Go.HasPrefix path tpl
  end.

(** [Router.Match]: routes are tried in the order they were registered. *)
Fixpoint Match (routes : list Route) (path : string) : option Handler :=
  match routes with
  | [] => None
  | rt :: routes' =>
      if matches (matcher rt) path then Some (handler rt)
      else Match routes' path
  end.

(** [cleanPath]: the canonical form of a request path.  The path is
    rooted, cleaned by [path.Clean], and keeps its trailing slash. *)
Definition cleanPath (p : string) : string :=
  if String.eqb p "" then "/"
  else
    let p' := if Go.HasPrefix p "/" then p else "/" ++ p in
    let np := Go.path_Clean p' in
    if Go.HasSuffix p' "/" && negb (String.eqb np "/") then np ++ "/" else np.

(** [Router.ServeHTTP].  [NewRouter] leaves [SkipClean] unset, so a
    request whose path is not in canonical form is answered 301 with the
    canonical path as [Location] and reaches no handler; otherwise the
    matched route's handler serves it, or the router answers 404. *)
Definition ServeHTTP (routes : list Route) (r : Request) : list HttpEvent :=
  let p := cleanPath (URL_Path r) in
  if negb (String.eqb p (URL_Path r)) then [Redirect p]
  else
    match Match routes (URL_Path r) with
    | Some h => [ServeHTTP h r]
    | None => [WriteHeader 404]
    end.

End mux.

(** The router [Action] builds, in registration order. *)
Definition mux : list mux.Route :=
  [ {| mux.matcher := mux.Path "/rpc/v0"; mux.handler := rpcServer |};
    {| mux.matcher := mux.PathPrefix "/remote"; mux.handler := ServeRemote |};
    {| mux.matcher := mux.PathPrefix "/"; mux.handler := DefaultServeMux |} ].

Module auth.

Record Handler := {
  Verify : string -> result (list string);
  Next : Request -> list HttpEvent
}.

(** Modelled from the spec: [auth.Handler.ServeHTTP], the AuthGate:
    "invokes a verification predicate (owned by the node) with the
    request's credential; on failure, must return an
    authentication-failure response and must NOT forward the request
    downstream; on success, forwards unmodified". *)
Definition ServeHTTP (h : Handler) (r : Request) : list HttpEvent :=
  AuthVerify (token r) ::
  match Verify h (token r) with
  | Err _ => [WriteHeader 401]
  | Ok _ => Next h r
  end.

End auth.

(** [ah] and [srv]: the server's only handler is the auth handler, whose
    [Next] is the router. *)
Definition ah (minerapi_AuthVerify : string -> result (list string)) : auth.Handler :=
  {| auth.Verify := minerapi_AuthVerify;
     auth.Next := mux.ServeHTTP mux |}.

Definition srv_Handler (minerapi_AuthVerify : string -> result (list string))
  (r : Request) : list HttpEvent :=
  auth.ServeHTTP (ah minerapi_AuthVerify) r.

(** ** The shutdown goroutine *)

Inductive Signal := SIGTERM | SIGINT.

(** The answers of [stop] and [srv.Shutdown]. *)
Record ShutdownWorld := {
  w_stop : option error;
  w_Shutdown : option error
}.

(** The goroutine blocks on [<-sigChan]; the first signal delivered starts
    the shutdown, later ones are left in the channel. *)
Definition shutdown (sigChan : list Signal) (w : ShutdownWorld) : list Event :=
  match sigChan with
  | [] => []
  | _ :: _ =>
      [Log Warn "Shutting down.." []; NodeStop]
      ++ match w_stop w with
         | Some err => [Log Error_ "graceful shutting down failed: %s" [AError err]]
         | None => []
         end
      ++ [SrvShutdown]
      ++ match w_Shutdown w with
         | Some err => [Log Error_ "shutting down RPC server failed: %s" [AError err]]
         | None => []
         end
      ++ [Log Warn "Graceful shutdown successful" []]
  end%list.

(** ** The pledge-sector goroutine *)

(** [WorkerStats], declared by the sector builder: five Go [int]s. *)
Record WorkerStats := {
  LocalFree : Z;
  RemotesFree : Z;
  LocalTotal : Z;
  RemotesTotal : Z;
  LocalReserved : Z
}.

(** Which case of the [select] fires. *)
Inductive Select := ctx_Done | time_After.

(** What the outside answers during one turn of the loop. *)
Record Cycle := {
  c_select : Select;
  c_WorkerStats : result WorkerStats;
  c_PledgeSector : option error
}.

Inductive Flow := Continue | Return.

Definition free (wstat : WorkerStats) : Z :=
  Go.int_add (LocalFree wstat) (RemotesFree wstat).

Definition available (wstat : WorkerStats) : Z :=
  Go.int_sub (Go.int_add (LocalTotal wstat) (RemotesTotal wstat)) (LocalReserved wstat).

(** The body of the [for] loop. *)
Definition pledge_cycle (c : Cycle) : list Event * Flow :=
  match c_select c with
  | ctx_Done => ([Log Info "End pledge sector" []], Return)
  | time_After =>
      match c_WorkerStats c with
      | Err err =>
          ([WorkerStats_; Log Error_ "Pledge: WorkerStats fail: %w" [AError err]], Return)
      | Ok wstat =>
          ([WorkerStats_;
            Log Info "Pledge: %d/%d workers" [AInt (free wstat); AInt (available wstat)]]
           ++ (if free wstat >? 0 then
                 PledgeSector ::
                 match c_PledgeSector c with
                 | Some err => [Log Error_ "Pledge sector error: %w" [AError err]]
                 | None => [Log Info "Success pledge sector" []]
                 end
               else []),
           Continue)%list
      end
  end.

(** The loop, on the turns the outside has answered so far; [Continue] when
    it is waiting in [select] for the next one. *)
Fixpoint pledge_loop (cycles : list Cycle) : list Event * Flow :=
  match cycles with
  | [] => ([], Continue)
  | c :: cycles' =>
      match pledge_cycle c with
      | (evs, Return) => (evs, Return)
      | (evs, Continue) =>
          let (evs', fl) := pledge_loop cycles' in ((evs ++ evs')%list, fl)
      end
  end.

(** The goroutine: [closer] is deferred once the miner API was obtained. *)
Definition pledge (w_GetStorageMinerAPI : option error) (cycles : list Cycle)
  : list Event :=
  ([Log Info "Begin pledge sector" []; GetStorageMinerAPI]
   ++ match w_GetStorageMinerAPI with
      | Some err => [Log Error_ "Pledge: GetStorageMinerAPI fail: %w" [AError err]]
      | None =>
          let (evs, fl) := pledge_loop cycles in
          evs ++ match fl with Return => [closer] | Continue => [] end
      end)%list.

(** ** Observations on traces *)

Definition is_WorkerStats (e : Event) : bool :=
  match e with WorkerStats_ => true | _ => false end.

Definition is_PledgeSector (e : Event) : bool :=
  match e with PledgeSector => true | _ => false end.

Definition is_Serve (e : Event) : bool :=
  match e with Serve _ => true | _ => false end.

Definition is_ServeHTTP (e : HttpEvent) : bool :=
  match e with ServeHTTP _ _ => true | _ => false end.

Definition is_error_log (e : Event) : bool :=
  match e with Log Error_ _ _ => true | _ => false end.

Definition failed (o : option error) : nat :=
  match o with Some _ => 1%nat | None => 0%nat end.

(** The route the design's table gives a path: the first of the three
    entries that matches. *)
Definition design_route (path : string) : Handler :=
  if String.eqb path "/rpc/v0" then rpcServer
  else if Go.HasPrefix path "/remote" then ServeRemote
  else DefaultServeMux.

(** A sample verification: one token is known. *)
Definition sample_verify (tok : string) : result (list string) :=
  if String.eqb tok "Bearer good" then Ok ["admin"]
  else Err (ExtErr "*errors.errorString" "JWT Verification failed").

(** How many capacity queries, and how many submissions, a trace holds. *)
Definition queries (tr : list Event) : nat := List.length (filter is_WorkerStats tr).
Definition submissions (tr : list Event) : nat := List.length (filter is_PledgeSector tr).

(** A turn in which a remote call of the loop fails: the capacity query, or
    the submission (made when capacity is free). *)
Definition query_fails (c : Cycle) : bool :=
  match c_select c, c_WorkerStats c with
  | time_After, Err _ => true
  | _, _ => false
  end.

Definition submission_fails (c : Cycle) : bool :=
  match c_select c, c_WorkerStats c, c_PledgeSector c with
  | time_After, Ok wstat, Some _ => free wstat >? 0
  | _, _, _ => false
  end.

(** The loop ends with turn [c]: whatever the outside would answer later,
    nothing more is asked of it. *)
Definition fail_fast_on (c : Cycle) : Prop :=
  forall post, pledge_loop (c :: post) = (fst (pledge_cycle c), Return).

(** Sample answers. *)
Definition io_error : error := ExtErr "*errors.errorString" "connection refused".

Definition one_free : WorkerStats :=
  {| LocalFree := 1; RemotesFree := 0; LocalTotal := 2; RemotesTotal := 0;
     LocalReserved := 0 |}.

Definition cycle_submit_fails : Cycle :=
  {| c_select := time_After; c_WorkerStats := Ok one_free;
     c_PledgeSector := Some io_error |}.

Definition cycle_query_fails : Cycle :=
  {| c_select := time_After; c_WorkerStats := Err io_error;
     c_PledgeSector := None |}.

Definition cycle_ok : Cycle :=
  {| c_select := time_After; c_WorkerStats := Ok one_free;
     c_PledgeSector := None |}.

Definition none_free : WorkerStats :=
  {| LocalFree := 0; RemotesFree := 0; LocalTotal := 2; RemotesTotal := 1;
     LocalReserved := 1 |}.

Definition cycle_busy : Cycle :=
  {| c_select := time_After; c_WorkerStats := Ok none_free;
     c_PledgeSector := Some io_error |}.

(** ** The bootstrap steps, as the design lists them *)

Inductive Step :=
| Connect
| VersionCheck
| SyncWaitStep
| RepoCheck
| NodeConstruction
| EndpointResolution
| PeerConnect
| ListenStep
| ServeLoop.

Definition rank (st : Step) : nat :=
  match st with
  | Connect => 0
  | VersionCheck => 1
  | SyncWaitStep => 2
  | RepoCheck => 3
  | NodeConstruction => 4
  | EndpointResolution => 5
  | PeerConnect => 6
  | ListenStep => 7
  | ServeLoop => 8
  end%nat.

(** The step a call belongs to. *)
Definition step_of (e : Event) : option Step :=
  match e with
  | GetFullNodeAPI => Some Connect
  | NodeApiVersion => Some VersionCheck
  | SyncWait => Some SyncWaitStep
  | NewFS _ | RepoExists => Some RepoCheck
  | NodeNew | NewMultiaddr _ | SetAPIEndpoint _ => Some NodeConstruction
  | APIEndpoint => Some EndpointResolution
  | NetAddrsListen | NetConnect _ => Some PeerConnect
  | Listen _ => Some ListenStep
  | Serve _ => Some ServeLoop
  | _ => None
  end.

Fixpoint steps (tr : list Event) : list Step :=
  match tr with
  | [] => []
  | e :: tr' =>
      match step_of e with
      | Some st => st :: steps tr'
      | None => steps tr'
      end
  end.

Fixpoint ascending (l : list nat) : bool :=
  match l with
  | a :: (b :: _) as l' => (a <=? b)%nat && ascending l'
  | _ => true
  end.

(** The endpoint the design resolves: the override when the [api] option
    was given, the persisted one otherwise. *)
Definition resolved_endpoint (cctx : Context) (persisted : option Multiaddr)
  : option Multiaddr :=
  match api cctx with
  | Some port => Some ("/ip4/127.0.0.1/tcp/" ++ port)
  | None => persisted
  end.

Definition wrapped (format : string) (o : option error) : option error :=
  match o with
  | Some err => Some (Errorf format [AError err])
  | None => None
  end.

Definition orelse (a b : option error) : option error :=
  match a with Some _ => a | None => b end.

Definition error_of {A} (r : result A) : option error :=
  match r with Err err => Some err | Ok _ => None end.

(** One step of the design's bootstrap: what it asks of the outside, and
    the error it ends in, if any. *)
Record StepRun := {
  step : Step;
  events : list Event;
  outcome : option error
}.

(** The design's reading of the command: its steps in their fixed order.
    This follows the step list of the design, not the control flow of
    [Action]; the two are compared below. *)
Definition design_steps (cctx : Context) (w : World) (persisted : option Multiaddr)
  : list StepRun :=
  [ {| step := Connect;
       events := [GetFullNodeAPI];
       outcome := w_GetFullNodeAPI w |};
    {| step := VersionCheck;
       events := [NodeApiVersion];
       outcome :=
         match w_Version w with
         | Err err => Some err
         | Ok v => if APIVersion v =? build_APIVersion w then None
                   else Some (version_mismatch w)
         end |};
    {| step := SyncWaitStep;
       events := Log Info "Checking full node sync status" []
                 :: (if nosync cctx then [] else [SyncWait]);
       outcome := if nosync cctx then None
                  else wrapped "sync wait: %w" (w_SyncWait w) |};
    {| step := RepoCheck;
       events := NewFS (FlagStorageRepo cctx)
                 :: match w_NewFS w with Some _ => [] | None => [RepoExists] end;
       outcome :=
         orelse (w_NewFS w)
           match w_Exists w with
           | Err err => Some err
           | Ok true => None
           | Ok false => Some (repo_not_initialized (FlagStorageRepo cctx))
           end |};
    {| step := NodeConstruction;
       events :=
         NodeNew ::
         match api cctx with
         | Some port =>
             let s := "/ip4/127.0.0.1/tcp/" ++ port in
             NewMultiaddr s ::
             match w_NewMultiaddr w s with
             | Some _ => []
             | None => [SetAPIEndpoint s]
             end
         | None => []
         end;
       outcome :=
         orelse
           match api cctx with
           | Some port =>
               orelse (w_NewMultiaddr w ("/ip4/127.0.0.1/tcp/" ++ port))
                      (w_SetAPIEndpoint w)
           | None => None
           end
           (w_construct w) |};
    {| step := EndpointResolution;
       events := [APIEndpoint];
       outcome :=
         orelse (w_APIEndpoint w)
           match resolved_endpoint cctx persisted with
           | Some _ => None
           | None => Some repo.ErrNoAPIEndpoint
           end |};
    {| step := PeerConnect;
       events :=
         NetAddrsListen ::
         match w_NetAddrsListen w with
         | Ok remoteAddrs => [NetConnect remoteAddrs]
         | Err _ => []
         end;
       outcome := orelse (error_of (w_NetAddrsListen w)) (w_NetConnect w) |};
    {| step := ListenStep;
       events :=
         match w_Version w, resolved_endpoint cctx persisted with
         | Ok v, Some endpoint =>
             [Log Info "Remote version %s" [AVersion v]; Listen endpoint]
         | _, _ => []
         end;
       outcome :=
         match resolved_endpoint cctx persisted with
         | Some endpoint => wrapped "could not listen: %w" (w_Listen w endpoint)
         | None => None
         end |};
    {| step := ServeLoop;
       events :=
         match resolved_endpoint cctx persisted with
         | Some endpoint =>
             [Go_ ShutdownTask; SignalNotify]
             ++ (if pledge_sector cctx then [Go_ PledgeTask] else [])
             ++ [Serve {| lst_addr := endpoint |}]
         | None => []
         end%list;
       outcome := w_Serve w |} ].

(** Strictly sequential: a step runs when every step before it succeeded,
    and the first error ends the walk. *)
Fixpoint walk (l : list StepRun) : list Event * option (Step * error) :=
  match l with
  | [] => ([], None)
  | s :: l' =>
      match outcome s with
      | Some err => (events s, Some (step s, err))
      | None => let (evs, r) := walk l' in ((events s ++ evs)%list, r)
      end
  end.

Definition design_result (cctx : Context) (w : World) (persisted : option Multiaddr)
  : result unit :=
  match snd (walk (design_steps cctx w persisted)) with
  | Some (_, err) => Err err
  | None => Ok tt
  end.

(** The trace of the design: the steps' calls, between the GPU switch and
    the deferred close of the full node's client. *)
Definition design_trace (cctx : Context) (w : World) (persisted : option Multiaddr)
  : list Event :=
  ((if enable_gpu_proving cctx then [] else [Setenv "BELLMAN_NO_GPU" "true"])
   ++ fst (walk (design_steps cctx w persisted))
   ++ match w_GetFullNodeAPI w with Some _ => [] | None => [ncloser] end)%list.

(** The step the bootstrap stopped in, if it did not reach the serve
    loop. *)
Definition bootstrap_failure (cctx : Context) (w : World) (persisted : option Multiaddr)
  : option (Step * error) :=
  match snd (walk (design_steps cctx w persisted)) with
  | Some (ServeLoop, _) => None
  | r => r
  end.

Definition serve_result (w : World) : result unit :=
  match w_Serve w with Some err => Err err | None => Ok tt end.

(** A world in which every bootstrap call succeeds. *)
Definition healthy (w : World) : Prop :=
  w_GetFullNodeAPI w = None /\
  (exists v, w_Version w = Ok v /\ APIVersion v = build_APIVersion w) /\
  w_SyncWait w = None /\
  w_NewFS w = None /\
  w_Exists w = Ok true /\
  (forall s, w_NewMultiaddr w s = None) /\
  w_SetAPIEndpoint w = None /\
  w_construct w = None /\
  w_APIEndpoint w = None /\
  (exists addrs, w_NetAddrsListen w = Ok addrs) /\
  w_NetConnect w = None /\
  (forall ma, w_Listen w ma = None).

Definition healthy_world : World :=
  {| build_APIVersion := 1;
     w_GetFullNodeAPI := None;
     w_Version := Ok {| APIVersion := 1 |};
     w_SyncWait := None;
     w_NewFS := None;
     w_Exists := Ok true;
     w_NewMultiaddr := fun _ => None;
     w_SetAPIEndpoint := None;
     w_construct := None;
     w_APIEndpoint := None;
     w_NetAddrsListen := Ok [];
     w_NetConnect := None;
     w_Listen := fun _ => None;
     w_Serve := None |}.

(** The full node answers with version 2 to a build of version 1. *)
Definition mismatch_world : World :=
  {| build_APIVersion := 1;
     w_GetFullNodeAPI := None;
     w_Version := Ok {| APIVersion := 2 |};
     w_SyncWait := None;
     w_NewFS := None;
     w_Exists := Ok true;
     w_NewMultiaddr := fun _ => None;
     w_SetAPIEndpoint := None;
     w_construct := None;
     w_APIEndpoint := None;
     w_NetAddrsListen := Ok [];
     w_NetConnect := None;
     w_Listen := fun _ => None;
     w_Serve := None |}.

(** The repository was never set up. *)
Definition no_repo_world : World :=
  {| build_APIVersion := 1;
     w_GetFullNodeAPI := None;
     w_Version := Ok {| APIVersion := 1 |};
     w_SyncWait := None;
     w_NewFS := None;
     w_Exists := Ok false;
     w_NewMultiaddr := fun _ => None;
     w_SetAPIEndpoint := None;
     w_construct := None;
     w_APIEndpoint := None;
     w_NetAddrsListen := Ok [];
     w_NetConnect := None;
     w_Listen := fun _ => None;
     w_Serve := None |}.

(** A rendering of [api.Version] by its number. *)
Definition decimal_version (v : Version) : string := Go.Itoa (APIVersion v).

Definition default_flags : Context :=
  {| enable_gpu_proving := true; nosync := false; pledge_sector := false;
     api := None; FlagStorageRepo := "/root/.lotusstorage" |}.

(** ** Further observations *)

Definition is_Setenv (e : Event) : bool :=
  match e with Setenv _ _ => true | _ => false end.

Definition is_ncloser (e : Event) : bool :=
  match e with ncloser => true | _ => false end.

Definition is_closer (e : Event) : bool :=
  match e with closer => true | _ => false end.

Definition is_NodeStop (e : Event) : bool :=
  match e with NodeStop => true | _ => false end.

Definition is_SrvShutdown (e : Event) : bool :=
  match e with SrvShutdown => true | _ => false end.

(** The goroutines, the signal registration and the serve loop. *)
Definition is_lifecycle (e : Event) : bool :=
  match e with
  | Go_ _ | SignalNotify | Serve _ => true
  | _ => false
  end.

(** The endpoint the [api] option stands for. *)
Definition api_endpoint (cctx : Context) : option Multiaddr :=
  match api cctx with
  | Some port => Some ("/ip4/127.0.0.1/tcp/" ++ port)
  | None => None
  end.

(** A turn that ends the loop: cancellation, or a failed capacity query. *)
Definition stops (c : Cycle) : bool :=
  match c_select c, c_WorkerStats c with
  | ctx_Done, _ => true
  | time_After, Err _ => true
  | time_After, Ok _ => false
  end.

(** A turn in which a submission is made. *)
Definition submits (c : Cycle) : bool :=
  match c_select c, c_WorkerStats c with
  | time_After, Ok wstat => free wstat >? 0
  | _, _ => false
  end.

Definition cycle_cancelled : Cycle :=
  {| c_select := ctx_Done; c_WorkerStats := Ok one_free;
     c_PledgeSector := None |}.

(** The full node is in sync wait when the connection drops. *)
Definition sync_fails_world : World :=
  {| build_APIVersion := 1;
     w_GetFullNodeAPI := None;
     w_Version := Ok {| APIVersion := 1 |};
     w_SyncWait := Some io_error;
     w_NewFS := None;
     w_Exists := Ok true;
     w_NewMultiaddr := fun _ => None;
     w_SetAPIEndpoint := None;
     w_construct := None;
     w_APIEndpoint := None;
     w_NetAddrsListen := Ok [];
     w_NetConnect := None;
     w_Listen := fun _ => None;
     w_Serve := None |}.

(** The port is taken. *)
Definition listen_fails_world : World :=
  {| build_APIVersion := 1;
     w_GetFullNodeAPI := None;
     w_Version := Ok {| APIVersion := 1 |};
     w_SyncWait := None;
     w_NewFS := None;
     w_Exists := Ok true;
     w_NewMultiaddr := fun _ => None;
     w_SetAPIEndpoint := None;
     w_construct := None;
     w_APIEndpoint := None;
     w_NetAddrsListen := Ok ["/ip4/10.0.0.7/tcp/1347"];
     w_NetConnect := None;
     w_Listen := fun _ => Some io_error;
     w_Serve := None |}.

Definition api_9000 : Context :=
  {| enable_gpu_proving := true; nosync := true; pledge_sector := true;
     api := Some "9000"; FlagStorageRepo := "/root/.lotusstorage" |}.

(** * Properties *)

(** ** The shutdown goroutine *)

Lemma shutdown_blocked (w : ShutdownWorld) : shutdown [] w = [].
Proof. reflexivity. Qed.

Lemma shutdown_first_signal (sig : Signal) (rest : list Signal) (w : ShutdownWorld) :
  shutdown (sig :: rest) w = shutdown [sig] w.
Proof. reflexivity. Qed.

(** C5: on the first signal the node is stopped before the listener is shut
    down; the error of the node's stop is logged between the two, and the
    listener's shutdown is attempted whether or not the stop failed. *)
Theorem shutdown_node_then_listener
  (sig : Signal) (rest : list Signal) (w : ShutdownWorld) :
  exists post,
    shutdown (sig :: rest) w =
      ([Log Warn "Shutting down.." []; NodeStop]
       ++ match w_stop w with
          | Some err => [Log Error_ "graceful shutting down failed: %s" [AError err]]
          | None => []
          end
       ++ SrvShutdown :: post)%list
    /\ ~ In NodeStop post
    /\ ~ In SrvShutdown post.
Proof.
  unfold shutdown.
  eexists; split; [reflexivity|].
  destruct (w_Shutdown w); simpl; split; intros H;
    repeat (destruct H as [H|H]; try discriminate H); assumption.
Qed.

(** C10: once both stop attempts have returned, the goroutine logs
    "Graceful shutdown successful", whatever the two attempts returned. *)
Theorem shutdown_logs_success_unconditionally
  (sig : Signal) (rest : list Signal) (w : ShutdownWorld) :
  exists pre,
    shutdown (sig :: rest) w =
      (pre ++ [Log Warn "Graceful shutdown successful" []])%list
    /\ In NodeStop pre
    /\ In SrvShutdown pre
    /\ List.length (filter is_error_log pre)
       = (failed (w_stop w) + failed (w_Shutdown w))%nat.
Proof.
  exists ([Log Warn "Shutting down.." []; NodeStop]
          ++ match w_stop w with
             | Some err => [Log Error_ "graceful shutting down failed: %s" [AError err]]
             | None => []
             end
          ++ [SrvShutdown]
          ++ match w_Shutdown w with
             | Some err => [Log Error_ "shutting down RPC server failed: %s" [AError err]]
             | None => []
             end)%list.
  unfold shutdown.
  destruct (w_stop w) as [e1|], (w_Shutdown w) as [e2|]; cbn;
    repeat split; auto 10.
Qed.

(** ** The pledge-sector goroutine *)

Lemma int_wrap_id (z : Z) : Go.in_int z -> Go.int_wrap z = z.
Proof.
  unfold Go.in_int, Go.int_wrap, Go.int_bits. intros H.
  rewrite Z.mod_small; lia.
Qed.

Lemma pledge_loop_app (pre post : list Cycle) :
  snd (pledge_loop pre) = Continue ->
  pledge_loop (pre ++ post) =
    ((fst (pledge_loop pre) ++ fst (pledge_loop post))%list, snd (pledge_loop post)).
Proof.
  induction pre as [|c pre IH]; simpl.
  - intros _. destruct (pledge_loop post); reflexivity.
  - destruct (pledge_cycle c) as [evs [|]].
    + destruct (pledge_loop pre) as [evs' fl] eqn:E. simpl. intros ->.
      rewrite IH by reflexivity. simpl. rewrite app_assoc. reflexivity.
    + simpl. discriminate.
Qed.

Lemma pledge_loop_return (c : Cycle) (post : list Cycle) :
  snd (pledge_cycle c) = Return ->
  pledge_loop (c :: post) = (fst (pledge_cycle c), Return).
Proof.
  simpl. destruct (pledge_cycle c) as [evs [|]]; simpl; [discriminate|reflexivity].
Qed.

Lemma pledge_loop_continue (c : Cycle) (post : list Cycle) :
  snd (pledge_cycle c) = Continue ->
  pledge_loop (c :: post) =
    ((fst (pledge_cycle c) ++ fst (pledge_loop post))%list, snd (pledge_loop post)).
Proof.
  simpl. destruct (pledge_cycle c) as [evs [|]]; simpl; [|discriminate].
  destruct (pledge_loop post); reflexivity.
Qed.

Lemma filter_length_app {A} (f : A -> bool) (l1 l2 : list A) :
  List.length (filter f (l1 ++ l2)) =
  (List.length (filter f l1) + List.length (filter f l2))%nat.
Proof. rewrite filter_app, length_app. reflexivity. Qed.

(** C7: a turn that obtained a capacity snapshot logs it, with
    free = LocalFree + RemotesFree and
    available = LocalTotal + RemotesTotal - LocalReserved, whatever the
    submission answers; it makes exactly one submission when free is above
    zero and none when LocalFree + RemotesFree = 0. *)
Theorem pledge_cycle_snapshot_and_submission (c : Cycle) (wstat : WorkerStats) :
  c_select c = time_After ->
  c_WorkerStats c = Ok wstat ->
  let evs := fst (pledge_cycle c) in
  In (Log Info "Pledge: %d/%d workers" [AInt (free wstat); AInt (available wstat)]) evs
  /\ queries evs = 1%nat
  /\ submissions evs = (if free wstat >? 0 then 1 else 0)%nat
  /\ (0 < free wstat -> submissions evs = 1%nat)
  /\ (LocalFree wstat + RemotesFree wstat = 0 -> submissions evs = 0%nat)
  /\ (Go.in_int (LocalFree wstat + RemotesFree wstat) ->
      free wstat = LocalFree wstat + RemotesFree wstat)
  /\ (Go.in_int (LocalTotal wstat + RemotesTotal wstat) ->
      Go.in_int (LocalTotal wstat + RemotesTotal wstat - LocalReserved wstat) ->
      available wstat = LocalTotal wstat + RemotesTotal wstat - LocalReserved wstat).
Proof.
  intros Hsel Hws evs. subst evs. unfold pledge_cycle. rewrite Hsel, Hws.
  assert (Hsub : submissions
            (fst (([WorkerStats_;
                    Log Info "Pledge: %d/%d workers"
                      [AInt (free wstat); AInt (available wstat)]]
                   ++ (if free wstat >? 0
                       then PledgeSector ::
                            match c_PledgeSector c with
                            | Some err => [Log Error_ "Pledge sector error: %w" [AError err]]
                            | None => [Log Info "Success pledge sector" []]
                            end
                       else []))%list, Continue))
          = (if free wstat >? 0 then 1 else 0)%nat).
  { destruct (free wstat >? 0); [destruct (c_PledgeSector c)|]; reflexivity. }
  repeat split.
  - simpl. auto.
  - destruct (free wstat >? 0); [destruct (c_PledgeSector c)|]; reflexivity.
  - exact Hsub.
  - intros Hpos. rewrite Hsub.
    destruct (Z.gtb_spec (free wstat) 0); [reflexivity|lia].
  - intros Hzero. rewrite Hsub. unfold free, Go.int_add. rewrite Hzero.
    reflexivity.
  - intros Hr. unfold free, Go.int_add. apply int_wrap_id, Hr.
  - intros H1 H2. unfold available, Go.int_sub, Go.int_add.
    rewrite (int_wrap_id _ H1). apply int_wrap_id, H2.
Qed.

(** C7 on two turns: one local worker free, and no worker free. *)
Lemma pledge_cycle_snapshot_and_submission_witness :
  (In (Log Info "Pledge: %d/%d workers" [AInt 1; AInt 2]) (fst (pledge_cycle cycle_ok))
   /\ submissions (fst (pledge_cycle cycle_ok)) = 1%nat
   /\ free one_free = 1 /\ available one_free = 2)
  /\ (In (Log Info "Pledge: %d/%d workers" [AInt 0; AInt 2]) (fst (pledge_cycle cycle_busy))
      /\ submissions (fst (pledge_cycle cycle_busy)) = 0%nat).
Proof.
  split.
  - destruct (pledge_cycle_snapshot_and_submission cycle_ok one_free eq_refl eq_refl)
      as (Hlog & _ & _ & Hone & _ & Hfree & Havail).
    split; [|split; [|split]].
    + exact Hlog.
    + apply Hone. reflexivity.
    + apply Hfree. unfold Go.in_int. simpl. lia.
    + apply Havail; unfold Go.in_int; simpl; lia.
  - destruct (pledge_cycle_snapshot_and_submission cycle_busy none_free eq_refl eq_refl)
      as (Hlog & _ & _ & _ & Hzero & _).
    split; [exact Hlog | apply Hzero; reflexivity].
Defined.

Lemma query_fails_inv (c : Cycle) :
  query_fails c = true ->
  exists err, c_select c = time_After /\ c_WorkerStats c = Err err.
Proof.
  unfold query_fails. destruct (c_select c); [discriminate|].
  destruct (c_WorkerStats c) as [ws|err]; [discriminate|].
  intros _. exists err. split; reflexivity.
Qed.

Lemma submission_fails_inv (c : Cycle) :
  submission_fails c = true ->
  exists wstat err,
    c_select c = time_After /\ c_WorkerStats c = Ok wstat /\
    c_PledgeSector c = Some err /\ (free wstat >? 0) = true.
Proof.
  unfold submission_fails. destruct (c_select c); [discriminate|].
  destruct (c_WorkerStats c) as [ws|e]; [|discriminate].
  destruct (c_PledgeSector c) as [err|]; [|discriminate].
  intros H. exists ws, err. repeat split. exact H.
Qed.

(** C1, as the code has it: a turn whose capacity query fails logs the
    error and ends the loop, and nothing the outside would answer later is
    asked for: no further query, no further submission.  A turn whose
    submission fails logs the error and the loop goes on to the next wait. *)
Theorem pledge_loop_fail_fast_on_query (pre post : list Cycle) (c : Cycle) :
  snd (pledge_loop pre) = Continue ->
  (query_fails c = true ->
   exists err,
     c_WorkerStats c = Err err
     /\ pledge_loop (pre ++ c :: post) =
          ((fst (pledge_loop pre)
            ++ [WorkerStats_; Log Error_ "Pledge: WorkerStats fail: %w" [AError err]])%list,
           Return)
     /\ pledge None (pre ++ c :: post) = pledge None (pre ++ [c])
     /\ queries (fst (pledge_loop (pre ++ c :: post)))
        = S (queries (fst (pledge_loop pre)))
     /\ submissions (fst (pledge_loop (pre ++ c :: post)))
        = submissions (fst (pledge_loop pre)))
  /\ (submission_fails c = true ->
      exists err,
        c_PledgeSector c = Some err
        /\ In (Log Error_ "Pledge sector error: %w" [AError err]) (fst (pledge_cycle c))
        /\ pledge_loop (pre ++ c :: post) =
             ((fst (pledge_loop pre) ++ fst (pledge_cycle c)
               ++ fst (pledge_loop post))%list,
              snd (pledge_loop post))).
Proof.
  intros Hpre. split.
  - intros Hq. destruct (query_fails_inv c Hq) as (err & Hsel & Hws).
    exists err.
    assert (Hc : pledge_cycle c =
                 ([WorkerStats_; Log Error_ "Pledge: WorkerStats fail: %w" [AError err]],
                  Return)).
    { unfold pledge_cycle. rewrite Hsel, Hws. reflexivity. }
    assert (Hloop : forall rest,
               pledge_loop (pre ++ c :: rest) =
               ((fst (pledge_loop pre)
                 ++ [WorkerStats_;
                     Log Error_ "Pledge: WorkerStats fail: %w" [AError err]])%list,
                Return)).
    { intros rest. rewrite (pledge_loop_app pre (c :: rest) Hpre).
      rewrite pledge_loop_return by (rewrite Hc; reflexivity).
      rewrite Hc. reflexivity. }
    split; [exact Hws|]. split; [apply Hloop|]. split.
    + unfold pledge. rewrite (Hloop post), (Hloop []). reflexivity.
    + rewrite (Hloop post). cbn [fst]. unfold queries, submissions.
      rewrite !filter_length_app. simpl. split; lia.
  - intros Hs.
    destruct (submission_fails_inv c Hs) as (ws & err & Hsel & Hws & Hp & Hfree).
    exists err. split; [exact Hp|].
    assert (Hc : pledge_cycle c =
                 ([WorkerStats_;
                   Log Info "Pledge: %d/%d workers" [AInt (free ws); AInt (available ws)];
                   PledgeSector;
                   Log Error_ "Pledge sector error: %w" [AError err]], Continue)).
    { unfold pledge_cycle. rewrite Hsel, Hws, Hp, Hfree. reflexivity. }
    split.
    + rewrite Hc. simpl. auto.
    + rewrite (pledge_loop_app pre (c :: post) Hpre).
      rewrite pledge_loop_continue by (rewrite Hc; reflexivity).
      reflexivity.
Qed.

(** The theorem on a loop that has made one successful turn: a failing
    query ends it, a failing submission does not. *)
Lemma pledge_loop_fail_fast_on_query_witness :
  pledge None [cycle_ok; cycle_query_fails; cycle_ok]
    = pledge None [cycle_ok; cycle_query_fails]
  /\ queries (fst (pledge_loop [cycle_ok; cycle_query_fails; cycle_ok])) = 2%nat
  /\ snd (pledge_loop [cycle_ok; cycle_submit_fails; cycle_ok]) = Continue.
Proof.
  destruct (pledge_loop_fail_fast_on_query [cycle_ok] [cycle_ok] cycle_query_fails eq_refl)
    as [Hq _].
  destruct (Hq eq_refl) as (err & _ & _ & Hsame & Hn & _).
  destruct (pledge_loop_fail_fast_on_query [cycle_ok] [cycle_ok] cycle_submit_fails eq_refl)
    as [_ Hs].
  destruct (Hs eq_refl) as (err' & _ & _ & Hgo).
  split; [exact Hsame|]. split; [exact Hn|].
  change ([cycle_ok; cycle_submit_fails; cycle_ok])
    with ([cycle_ok] ++ cycle_submit_fails :: [cycle_ok])%list.
  rewrite Hgo. reflexivity.
Defined.

(** C1 as stated fails on a submission error: the turn's submission returns
    an error, yet the loop is not ended by it and goes on to query and to
    submit again. *)
Lemma pledge_loop_survives_submission_error :
  submission_fails cycle_submit_fails = true
  /\ ~ fail_fast_on cycle_submit_fails
  /\ snd (pledge_loop [cycle_submit_fails; cycle_ok]) = Continue
  /\ queries (fst (pledge_loop [cycle_submit_fails; cycle_ok])) = 2%nat
  /\ submissions (fst (pledge_loop [cycle_submit_fails; cycle_ok])) = 2%nat.
Proof.
  split; [reflexivity|]. split.
  - intros H. specialize (H [cycle_ok]). discriminate H.
  - repeat split; reflexivity.
Qed.

(** ** [Action] against the design's step list *)

Ltac unfold_run :=
  unfold run, Action, design_result, design_trace, bootstrap_failure,
    serve_result, design_steps, resolved_endpoint, node.New, bind, when,
    call_, call, defer, emit, log, fail, ret, repo.APIEndpoint,
    multiaddr_NewMultiaddr, repo.SetAPIEndpoint, orelse, wrapped, error_of,
    IsSet_api, String_api;
  cbn.

(** Case analysis on one answer of the world: the branch in which the run
    ends is closed by [close] at once. *)
Ltac answer close x :=
  match goal with
  | |- context [x] => destruct x; cbn; try (solve [close])
  | _ => idtac
  end.

(** The answers in program order, for every setting of the flags. *)
Ltac bootstrap_cases cctx w persisted close :=
  destruct w as [bv gfa ver sw nfs ex nma sae con ape nal nc lis srv];
  destruct cctx as [gpu ns ps ap path];
  unfold_run;
  destruct gpu, ns, ps; cbn;
  answer close gfa; answer close ver;
  match goal with |- context [?a =? bv] => answer close (a =? bv) end;
  answer close sw; answer close nfs; answer close ex;
  match goal with |- context [negb ?b] => answer close b end;
  destruct ap as [port|]; cbn;
  try match goal with |- context [nma ?s] => answer close (nma s) end;
  answer close sae; answer close con; answer close ape;
  try (destruct persisted as [ma|]; cbn; try (solve [close]));
  answer close nal; answer close nc;
  try match goal with |- context [lis ?m] => answer close (lis m) end;
  answer close srv.

Ltac close_eqs := repeat split; reflexivity.

Lemma Action_refines_design (cctx : Context) (w : World) (persisted : option Multiaddr) :
  fst (run cctx w persisted) = design_result cctx w persisted
  /\ trace (snd (run cctx w persisted)) = design_trace cctx w persisted.
Proof. bootstrap_cases cctx w persisted close_eqs. Qed.

(** C9: the bootstrap is the strictly sequential walk of the design's step
    list: the calls of a run are in step order, a step that fails is the
    last one started and its error is what the command returns, and the
    serve loop is entered exactly when no bootstrap step failed. *)
Theorem bootstrap_strictly_sequential
  (cctx : Context) (w : World) (persisted : option Multiaddr) :
  let tr := trace (snd (run cctx w persisted)) in
  ascending (map rank (steps tr)) = true
  /\ existsb is_Serve tr =
     match bootstrap_failure cctx w persisted with
     | Some _ => false
     | None => true
     end
  /\ fst (run cctx w persisted) =
     match bootstrap_failure cctx w persisted with
     | Some (_, err) => Err err
     | None => serve_result w
     end
  /\ forallb (fun st => rank st <=?
                        match bootstrap_failure cctx w persisted with
                        | Some (failed_step, _) => rank failed_step
                        | None => rank ServeLoop
                        end)%nat (steps tr) = true.
Proof. bootstrap_cases cctx w persisted close_eqs. Qed.

(** ** Version gate and repository check *)

(** C2, as the code has it: when the remote version differs from the local
    one, the command returns the version-mismatch error, which is built from
    the local version alone, and [node.New] is never called. *)
Theorem version_mismatch_aborts
  (cctx : Context) (w : World) (persisted : option Multiaddr) (remote : Version) :
  w_GetFullNodeAPI w = None ->
  w_Version w = Ok remote ->
  APIVersion remote <> build_APIVersion w ->
  fst (run cctx w persisted) =
    Err (Errorf "lotus-daemon API version doesn't match: local: "
                [AVersion {| APIVersion := build_APIVersion w |}])
  /\ trace (snd (run cctx w persisted)) =
       ((if enable_gpu_proving cctx then [] else [Setenv "BELLMAN_NO_GPU" "true"])
        ++ [GetFullNodeAPI; NodeApiVersion; ncloser])%list
  /\ ~ In NodeNew (trace (snd (run cctx w persisted))).
Proof.
  intros Hapi Hver Hneq.
  apply Z.eqb_neq in Hneq.
  assert (Hrun : run cctx w persisted =
                 (Err (version_mismatch w),
                  {| repo_endpoint := persisted;
                     trace := ((if enable_gpu_proving cctx then []
                                else [Setenv "BELLMAN_NO_GPU" "true"])
                               ++ [GetFullNodeAPI; NodeApiVersion; ncloser])%list |})).
  { unfold run, Action, bind, when, call_, call, defer, emit, fail, ret.
    rewrite Hapi, Hver. destruct (enable_gpu_proving cctx); cbn;
      rewrite Hneq; reflexivity. }
  rewrite Hrun. cbn [fst snd trace]. repeat split.
  intros Hin. apply in_app_or in Hin. destruct Hin as [Hin|Hin].
  - destruct (enable_gpu_proving cctx); simpl in Hin; intuition discriminate.
  - simpl in Hin. intuition discriminate.
Qed.

Lemma version_mismatch_aborts_witness :
  fst (run default_flags mismatch_world None) =
    Err (Errorf "lotus-daemon API version doesn't match: local: "
                [AVersion {| APIVersion := 1 |}])
  /\ ~ In NodeNew (trace (snd (run default_flags mismatch_world None))).
Proof.
  destruct (version_mismatch_aborts default_flags mismatch_world None
              {| APIVersion := 2 |} eq_refl eq_refl) as (Hres & _ & Hnode).
  - simpl. discriminate.
  - split; [exact Hres | exact Hnode].
Defined.

(** C2 as stated fails: with local version 1 and remote version 2, the
    message of the returned error does not include the remote version. *)
Lemma version_mismatch_message_omits_remote :
  exists err,
    fst (run default_flags mismatch_world None) = Err err
    /\ Error decimal_version err =
       "lotus-daemon API version doesn't match: local: %!(EXTRA api.Version=1)"
    /\ Go.Contains (Error decimal_version err)
                   (decimal_version {| APIVersion := 2 |}) = false.
Proof.
  eexists. split; [reflexivity|]. split; reflexivity.
Qed.

Lemma HasPrefix_app (s t : string) : Go.HasPrefix (s ++ t) s = true.
Proof.
  induction s as [|a s IH]; simpl.
  - reflexivity.
  - rewrite Ascii.eqb_refl. exact IH.
Qed.

Lemma Contains_prefix (s sub : string) :
  Go.HasPrefix s sub = true -> Go.Contains s sub = true.
Proof. destruct s; simpl; intros ->; reflexivity. Qed.

Lemma Contains_app (p s t : string) : Go.Contains (p ++ s ++ t) s = true.
Proof.
  induction p as [|a p IH]; simpl.
  - apply Contains_prefix, HasPrefix_app.
  - rewrite IH. apply orb_true_r.
Qed.

(** C6: when the repository at the given path is not initialized, the
    command returns an error whose message names the path, and it does so
    before [node.New] is called and before any listener is opened. *)
Theorem repo_not_initialized_aborts
  (Version_String : Version -> string)
  (cctx : Context) (w : World) (persisted : option Multiaddr) (v : Version) :
  w_GetFullNodeAPI w = None ->
  w_Version w = Ok v ->
  APIVersion v = build_APIVersion w ->
  (nosync cctx = false -> w_SyncWait w = None) ->
  w_NewFS w = None ->
  w_Exists w = Ok false ->
  exists err,
    fst (run cctx w persisted) = Err err
    /\ Error Version_String err =
       "repo at '" ++ FlagStorageRepo cctx
       ++ "' is not initialized, run 'lotus-storage-miner init' to set it up"
    /\ Go.Contains (Error Version_String err) (FlagStorageRepo cctx) = true
    /\ ~ In NodeNew (trace (snd (run cctx w persisted)))
    /\ (forall endpoint, ~ In (Listen endpoint) (trace (snd (run cctx w persisted))))
    /\ existsb is_Serve (trace (snd (run cctx w persisted))) = false.
Proof.
  intros Hapi Hver Heq Hsync Hfs Hex.
  apply Z.eqb_eq in Heq.
  exists (repo_not_initialized (FlagStorageRepo cctx)).
  assert (Hmsg : Error Version_String (repo_not_initialized (FlagStorageRepo cctx)) =
                 "repo at '" ++ FlagStorageRepo cctx
                 ++ "' is not initialized, run 'lotus-storage-miner init' to set it up")
    by reflexivity.
  assert (Hrun : run cctx w persisted =
                 (Err (repo_not_initialized (FlagStorageRepo cctx)),
                  {| repo_endpoint := persisted;
                     trace := ((if enable_gpu_proving cctx then []
                                else [Setenv "BELLMAN_NO_GPU" "true"])
                               ++ [GetFullNodeAPI; NodeApiVersion;
                                   Log Info "Checking full node sync status" []]
                               ++ (if nosync cctx then [] else [SyncWait])
                               ++ [NewFS (FlagStorageRepo cctx); RepoExists; ncloser])%list |})).
  { unfold run, Action, bind, when, call_, call, defer, emit, log, fail, ret.
    rewrite Hapi, Hver, Hfs, Hex.
    destruct (enable_gpu_proving cctx); cbn; rewrite Heq; cbn;
      (destruct (nosync cctx); cbn; [reflexivity|]);
      rewrite (Hsync eq_refl); reflexivity. }
  rewrite Hrun. cbn [fst snd trace].
  split; [reflexivity|]. split; [exact Hmsg|]. split.
  { rewrite Hmsg. apply Contains_app. }
  destruct (enable_gpu_proving cctx), (nosync cctx); cbn;
    (split; [|split; [intros endpoint|reflexivity]]); intros Hin;
    repeat (destruct Hin as [Hin|Hin]; [discriminate Hin|]); exact Hin.
Qed.

Lemma repo_not_initialized_aborts_witness :
  exists err,
    fst (run default_flags no_repo_world None) = Err err
    /\ Go.Contains (Error decimal_version err) "/root/.lotusstorage" = true
    /\ existsb is_Serve (trace (snd (run default_flags no_repo_world None))) = false.
Proof.
  destruct (repo_not_initialized_aborts decimal_version default_flags no_repo_world
              None {| APIVersion := 1 |} eq_refl eq_refl eq_refl
              (fun _ => eq_refl) eq_refl eq_refl)
    as (err & Hres & _ & Hnames & _ & _ & Hserve).
  exists err. split; [exact Hres|]. split; [exact Hnames | exact Hserve].
Defined.

(** ** Endpoint override *)

Ltac close_in :=
  unfold not; repeat (split || intro);
  repeat match goal with
         | H : _ \/ _ |- _ => destruct H as [H|H]
         | H : False |- _ => contradiction H
         | H : @eq Event _ _ |- _ =>
             first [discriminate H | progress (injection H as H; subst) | clear H]
         | H : @eq (option _) _ _ |- _ =>
             first [discriminate H | progress (injection H as H; subst) | clear H]
         end;
  try reflexivity; simpl; auto 20.

Lemma listen_endpoint_cases (cctx : Context) (w : World) (persisted : option Multiaddr) :
  let tr := trace (snd (run cctx w persisted)) in
  (forall endpoint, In (Listen endpoint) tr ->
     resolved_endpoint cctx persisted = Some endpoint)
  /\ (api cctx = None ->
      (forall ma, ~ In (SetAPIEndpoint ma) tr)
      /\ repo_endpoint (snd (run cctx w persisted)) = persisted)
  /\ (forall port, api cctx = Some port -> In NodeNew tr ->
      In (NewMultiaddr ("/ip4/127.0.0.1/tcp/" ++ port)) tr).
Proof. bootstrap_cases cctx w persisted close_in. Qed.


Lemma healthy_run_listens
  (cctx : Context) (w : World) (persisted : option Multiaddr) (endpoint : Multiaddr) :
  healthy w ->
  resolved_endpoint cctx persisted = Some endpoint ->
  In (Listen endpoint) (trace (snd (run cctx w persisted)))
  /\ In (Serve {| lst_addr := endpoint |}) (trace (snd (run cctx w persisted))).
Proof.
  destruct w as [bv gfa ver sw nfs ex nma sae con ape nal nc lis srv].
  destruct cctx as [gpu ns ps ap path].
  unfold healthy, resolved_endpoint. cbn.
  intros (-> & (v & -> & Hv) & -> & -> & -> & Hnma & -> & -> & -> & (addrs & ->)
          & -> & Hlis) Hep.
  apply Z.eqb_eq in Hv.
  unfold run, Action, node.New, bind, when, call_, call, defer, emit, log, fail,
    ret, repo.APIEndpoint, multiaddr_NewMultiaddr, repo.SetAPIEndpoint,
    IsSet_api, String_api.
  cbn. rewrite Hv.
  destruct ap as [port|]; [injection Hep as <-|subst persisted];
    destruct gpu, ns, ps, srv; cbn;
    rewrite ?Hnma; cbn; rewrite ?Hlis; cbn;
    split; repeat (first [left; reflexivity | right]).
Qed.

(** C3: the endpoint override is applied exactly when the [api] option was
    given.  When it was given, [node.New] applies the override and the
    listener is opened on [/ip4/127.0.0.1/tcp/<api>], whatever endpoint
    was persisted; when it was not, the repository's endpoint is neither
    written nor replaced, and the listener is opened on the persisted
    one. *)
Theorem endpoint_override_iff_api_set
  (cctx : Context) (w : World) (persisted : option Multiaddr) :
  let tr := trace (snd (run cctx w persisted)) in
  (forall port endpoint,
      api cctx = Some port -> In (Listen endpoint) tr ->
      endpoint = "/ip4/127.0.0.1/tcp/" ++ port)
  /\ (forall port,
        api cctx = Some port -> In NodeNew tr ->
        In (NewMultiaddr ("/ip4/127.0.0.1/tcp/" ++ port)) tr)
  /\ (forall port,
        api cctx = Some port -> healthy w ->
        In (Listen ("/ip4/127.0.0.1/tcp/" ++ port)) tr
        /\ In (Serve {| lst_addr := "/ip4/127.0.0.1/tcp/" ++ port |}) tr)
  /\ (api cctx = None ->
      (forall ma, ~ In (SetAPIEndpoint ma) tr)
      /\ repo_endpoint (snd (run cctx w persisted)) = persisted
      /\ (forall endpoint, In (Listen endpoint) tr -> persisted = Some endpoint)
      /\ (forall endpoint, healthy w -> persisted = Some endpoint ->
          In (Listen endpoint) tr /\ In (Serve {| lst_addr := endpoint |}) tr)).
Proof.
  intros tr.
  destruct (listen_endpoint_cases cctx w persisted) as (Hsafe & Hnone & Hset).
  fold tr in Hsafe, Hnone, Hset.
  split; [|split; [|split]].
  - intros port endpoint Hapi Hin. apply Hsafe in Hin.
    unfold resolved_endpoint in Hin. rewrite Hapi in Hin. congruence.
  - exact Hset.
  - intros port Hapi Hw. apply healthy_run_listens; [exact Hw|].
    unfold resolved_endpoint. rewrite Hapi. reflexivity.
  - intros Hapi. destruct (Hnone Hapi) as [Hno Hrepo].
    split; [exact Hno|]. split; [exact Hrepo|]. split.
    + intros endpoint Hin. apply Hsafe in Hin.
      unfold resolved_endpoint in Hin. rewrite Hapi in Hin. exact Hin.
    + intros endpoint Hw Hp. apply healthy_run_listens; [exact Hw|].
      unfold resolved_endpoint. rewrite Hapi. exact Hp.
Qed.

Lemma healthy_world_healthy : healthy healthy_world.
Proof.
  unfold healthy, healthy_world; cbn.
  repeat split; eauto.
Qed.

(** C3 on the end-to-end run of the design: [--api 9000] on a repository
    that persisted port 2345, and the same repository without the option. *)
Lemma endpoint_override_iff_api_set_witness :
  In (Listen "/ip4/127.0.0.1/tcp/9000")
     (trace (snd (run {| enable_gpu_proving := true; nosync := true;
                         pledge_sector := false; api := Some "9000";
                         FlagStorageRepo := "/root/.lotusstorage" |}
                      healthy_world (Some "/ip4/127.0.0.1/tcp/2345"))))
  /\ In (Listen "/ip4/127.0.0.1/tcp/2345")
        (trace (snd (run default_flags healthy_world (Some "/ip4/127.0.0.1/tcp/2345")))).
Proof.
  split.
  - exact (proj1 (proj1 (proj2 (proj2
             (endpoint_override_iff_api_set
                {| enable_gpu_proving := true; nosync := true;
                   pledge_sector := false; api := Some "9000";
                   FlagStorageRepo := "/root/.lotusstorage" |}
                healthy_world (Some "/ip4/127.0.0.1/tcp/2345")))) "9000" eq_refl
             healthy_world_healthy)).
  - exact (proj1 (proj2 (proj2 (proj2 (proj2 (proj2 (proj2
             (endpoint_override_iff_api_set default_flags healthy_world
                (Some "/ip4/127.0.0.1/tcp/2345")))) eq_refl)))
             "/ip4/127.0.0.1/tcp/2345" healthy_world_healthy eq_refl)).
Defined.

(** ** The HTTP stack *)

(** [Router.Match] returns the handler of the first route that matches. *)
Lemma Match_first (routes : list mux.Route) (path : string) (h : Handler) :
  mux.Match routes path = Some h <->
  exists pre rt post,
    routes = (pre ++ rt :: post)%list
    /\ forallb (fun r => negb (mux.matches (mux.matcher r) path)) pre = true
    /\ mux.matches (mux.matcher rt) path = true
    /\ mux.handler rt = h.
Proof.
  induction routes as [|r routes IH]; simpl.
  - split; [discriminate|].
    intros (pre & rt & post & E & _). destruct pre; discriminate E.
  - destruct (mux.matches (mux.matcher r) path) eqn:Hm.
    + split.
      * intros [= <-]. exists [], r, routes. repeat split. exact Hm.
      * intros (pre & rt & post & E & Hpre & Hrt & Hh).
        destruct pre as [|r' pre]; simpl in E; injection E as -> E.
        -- subst. reflexivity.
        -- simpl in Hpre. rewrite Hm in Hpre. discriminate Hpre.
    + rewrite IH. split.
      * intros (pre & rt & post & -> & Hpre & Hrt & Hh).
        exists (r :: pre), rt, post. simpl. rewrite Hm. repeat split; assumption.
      * intros (pre & rt & post & E & Hpre & Hrt & Hh).
        destruct pre as [|r' pre]; simpl in E; injection E as -> E.
        -- rewrite Hm in Hrt. discriminate Hrt.
        -- simpl in Hpre. rewrite Hm in Hpre. simpl in Hpre.
           exists pre, rt, post. repeat split; assumption.
Qed.

Lemma path_Clean_rooted (p : string) : Go.HasPrefix (Go.path_Clean p) "/" = true.
Proof. reflexivity. Qed.

(** A canonical path is rooted: [cleanPath] always returns a path that
    starts with a slash. *)
Lemma cleanPath_rooted (p : string) : Go.HasPrefix (mux.cleanPath p) "/" = true.
Proof.
  unfold mux.cleanPath.
  destruct (String.eqb p ""); [reflexivity|].
  destruct (Go.HasSuffix _ "/" && negb (String.eqb _ "/")); reflexivity.
Qed.

Lemma canonical_rooted (p : string) :
  mux.cleanPath p = p -> Go.HasPrefix p "/" = true.
Proof. intros H. rewrite <- H. apply cleanPath_rooted. Qed.

(** C8, as the code has it: a request whose path is in canonical form is
    served by exactly one of the three handlers, the first whose route
    matches, in registration order: [/rpc/v0] exactly to the RPC server,
    a path under [/remote] to the streaming handler, any other path to
    the default mux.  A request whose path is not canonical is answered
    by the router with a redirect to the canonical path and reaches no
    handler. *)
Theorem mux_first_match_dispatch (r : Request) :
  (mux.cleanPath (URL_Path r) = URL_Path r ->
   mux.ServeHTTP mux r =
     [ServeHTTP (if String.eqb (URL_Path r) "/rpc/v0" then rpcServer
                 else if Go.HasPrefix (URL_Path r) "/remote" then ServeRemote
                 else DefaultServeMux) r]
   /\ List.length (filter is_ServeHTTP (mux.ServeHTTP mux r)) = 1%nat
   /\ exists pre rt post,
        mux = (pre ++ rt :: post)%list
        /\ forallb (fun rt' => negb (mux.matches (mux.matcher rt') (URL_Path r))) pre = true
        /\ mux.matches (mux.matcher rt) (URL_Path r) = true
        /\ mux.ServeHTTP mux r = [ServeHTTP (mux.handler rt) r])
  /\ (mux.cleanPath (URL_Path r) <> URL_Path r ->
      mux.ServeHTTP mux r = [Redirect (mux.cleanPath (URL_Path r))]
      /\ filter is_ServeHTTP (mux.ServeHTTP mux r) = []).
Proof.
  split.
  - intros Hclean.
    pose proof (canonical_rooted _ Hclean) as Habs.
    assert (Hm : mux.Match mux (URL_Path r) = Some (design_route (URL_Path r))).
    { unfold mux, design_route. cbn [mux.Match mux.matches mux.matcher mux.handler].
      destruct (String.eqb (URL_Path r) "/rpc/v0"); [reflexivity|].
      destruct (Go.HasPrefix (URL_Path r) "/remote"); [reflexivity|].
      rewrite Habs. reflexivity. }
    assert (Hs : mux.ServeHTTP mux r = [ServeHTTP (design_route (URL_Path r)) r]).
    { unfold mux.ServeHTTP. rewrite Hclean, String.eqb_refl, Hm. reflexivity. }
    split; [exact Hs|]. split; [rewrite Hs; reflexivity|].
    apply Match_first in Hm. destruct Hm as (pre & rt & post & E & Hpre & Hrt & Hh).
    exists pre, rt, post. rewrite Hh. auto.
  - intros Hdirty. apply String.eqb_neq in Hdirty.
    unfold mux.ServeHTTP. rewrite Hdirty. split; reflexivity.
Qed.

Lemma mux_first_match_dispatch_witness :
  mux.ServeHTTP mux {| URL_Path := "/rpc/v0"; token := "" |}
    = [ServeHTTP rpcServer {| URL_Path := "/rpc/v0"; token := "" |}]
  /\ mux.ServeHTTP mux {| URL_Path := "/remote/sealed/s-t01000-1"; token := "" |}
     = [ServeHTTP ServeRemote {| URL_Path := "/remote/sealed/s-t01000-1"; token := "" |}]
  /\ mux.ServeHTTP mux {| URL_Path := "/debug/pprof/heap"; token := "" |}
     = [ServeHTTP DefaultServeMux {| URL_Path := "/debug/pprof/heap"; token := "" |}]
  /\ mux.ServeHTTP mux {| URL_Path := "/remote/../rpc/v0"; token := "" |}
     = [Redirect "/rpc/v0"].
Proof.
  split; [|split; [|split]].
  - exact (proj1 (proj1 (mux_first_match_dispatch
                           {| URL_Path := "/rpc/v0"; token := "" |}) eq_refl)).
  - exact (proj1 (proj1 (mux_first_match_dispatch
                           {| URL_Path := "/remote/sealed/s-t01000-1"; token := "" |})
                        eq_refl)).
  - exact (proj1 (proj1 (mux_first_match_dispatch
                           {| URL_Path := "/debug/pprof/heap"; token := "" |}) eq_refl)).
  - refine (proj1 (proj2 (mux_first_match_dispatch
                            {| URL_Path := "/remote/../rpc/v0"; token := "" |}) _)).
    vm_compute. discriminate.
Defined.

(** C8 as stated fails on a path that is not canonical: [//rpc/v0] starts
    with a slash, yet the router serves it with none of the three
    handlers and answers with a redirect to [/rpc/v0]. *)
Lemma mux_redirects_non_canonical_path :
  Go.HasPrefix "//rpc/v0" "/" = true
  /\ mux.ServeHTTP mux {| URL_Path := "//rpc/v0"; token := "" |} = [Redirect "/rpc/v0"]
  /\ filter is_ServeHTTP (mux.ServeHTTP mux {| URL_Path := "//rpc/v0"; token := "" |}) = []
  /\ forall h r', ~ In (ServeHTTP h r')
                       (mux.ServeHTTP mux {| URL_Path := "//rpc/v0"; token := "" |}).
Proof.
  split; [reflexivity|]. split; [reflexivity|]. split; [reflexivity|].
  intros h r' [H|[]]. discriminate H.
Qed.

(** C4: the server's handler verifies the credential of every request
    before anything else; a request whose verification fails is answered
    401 and reaches no handler of the router, on any path; a handler is
    reached only after the verification succeeded, with the request
    unchanged. *)
Theorem auth_gate_covers_every_route
  (minerapi_AuthVerify : string -> result (list string)) (r : Request) :
  (exists rest, srv_Handler minerapi_AuthVerify r = AuthVerify (token r) :: rest)
  /\ (forall err,
        minerapi_AuthVerify (token r) = Err err ->
        srv_Handler minerapi_AuthVerify r = [AuthVerify (token r); WriteHeader 401]
        /\ filter is_ServeHTTP (srv_Handler minerapi_AuthVerify r) = [])
  /\ (forall perms,
        minerapi_AuthVerify (token r) = Ok perms ->
        srv_Handler minerapi_AuthVerify r = AuthVerify (token r) :: mux.ServeHTTP mux r)
  /\ (forall h r',
        In (ServeHTTP h r') (srv_Handler minerapi_AuthVerify r) ->
        r' = r /\ exists perms, minerapi_AuthVerify (token r) = Ok perms).
Proof.
  unfold srv_Handler, auth.ServeHTTP, ah. cbn [auth.Verify auth.Next].
  split; [eexists; reflexivity|].
  destruct (minerapi_AuthVerify (token r)) as [perms|err]; split.
  - intros err [=].
  - split.
    + intros perms' _. reflexivity.
    + intros h r' [Hin|Hin]; [discriminate Hin|].
      split; [|exists perms; reflexivity].
      unfold mux.ServeHTTP in Hin.
      destruct (negb (String.eqb (mux.cleanPath (URL_Path r)) (URL_Path r)));
        [destruct Hin as [Hin|[]]; discriminate Hin|].
      destruct (mux.Match mux (URL_Path r)); simpl in Hin;
        destruct Hin as [Hin|[]]; [injection Hin as _ <-; reflexivity | discriminate Hin].
  - intros err' _. split; reflexivity.
  - split.
    + intros perms [=].
    + intros h r' [Hin|[Hin|[]]]; discriminate Hin.
Qed.

(** C4 on a request with an unknown token, on each of the three routes. *)
Lemma auth_gate_covers_every_route_witness :
  srv_Handler sample_verify {| URL_Path := "/rpc/v0"; token := "Bearer bad" |}
    = [AuthVerify "Bearer bad"; WriteHeader 401]
  /\ srv_Handler sample_verify {| URL_Path := "/remote/sealed/1"; token := "Bearer bad" |}
     = [AuthVerify "Bearer bad"; WriteHeader 401]
  /\ srv_Handler sample_verify {| URL_Path := "/debug/pprof/"; token := "Bearer bad" |}
     = [AuthVerify "Bearer bad"; WriteHeader 401]
  /\ srv_Handler sample_verify {| URL_Path := "/debug/pprof/"; token := "Bearer good" |}
     = [AuthVerify "Bearer good";
        ServeHTTP DefaultServeMux {| URL_Path := "/debug/pprof/"; token := "Bearer good" |}].
Proof.
  split; [|split; [|split]].
  - apply (auth_gate_covers_every_route sample_verify
             {| URL_Path := "/rpc/v0"; token := "Bearer bad" |})
      with (err := ExtErr "*errors.errorString" "JWT Verification failed").
    reflexivity.
  - apply (auth_gate_covers_every_route sample_verify
             {| URL_Path := "/remote/sealed/1"; token := "Bearer bad" |})
      with (err := ExtErr "*errors.errorString" "JWT Verification failed").
    reflexivity.
  - apply (auth_gate_covers_every_route sample_verify
             {| URL_Path := "/debug/pprof/"; token := "Bearer bad" |})
      with (err := ExtErr "*errors.errorString" "JWT Verification failed").
    reflexivity.
  - apply (auth_gate_covers_every_route sample_verify
             {| URL_Path := "/debug/pprof/"; token := "Bearer good" |})
      with (perms := ["admin"]).
    reflexivity.
Defined.

(** ** More on the pledge-sector goroutine *)

Lemma pledge_cycle_counts (c : Cycle) :
  (submissions (fst (pledge_cycle c)) <= queries (fst (pledge_cycle c)) <= 1)%nat
  /\ filter is_closer (fst (pledge_cycle c)) = []
  /\ snd (pledge_cycle c) = (if stops c then Return else Continue)
  /\ (stops c = false ->
      queries (fst (pledge_cycle c)) = 1%nat
      /\ submissions (fst (pledge_cycle c)) = (if submits c then 1 else 0)%nat).
Proof.
  unfold pledge_cycle, stops, submits, queries, submissions.
  destruct (c_select c); [cbn; repeat split; try lia; discriminate|].
  destruct (c_WorkerStats c) as [ws|err]; [|cbn; repeat split; try lia; discriminate].
  destruct (free ws >? 0); [destruct (c_PledgeSector c)|]; cbn;
    repeat split; lia.
Qed.

Lemma pledge_loop_cons (c : Cycle) (cycles : list Cycle) :
  pledge_loop (c :: cycles) =
    if stops c then (fst (pledge_cycle c), Return)
    else ((fst (pledge_cycle c) ++ fst (pledge_loop cycles))%list,
          snd (pledge_loop cycles)).
Proof.
  destruct (pledge_cycle_counts c) as (_ & _ & Hfl & _).
  simpl. destruct (pledge_cycle c) as [evs fl]. simpl in Hfl. subst fl.
  destruct (stops c); [reflexivity|].
  destruct (pledge_loop cycles); reflexivity.
Qed.

Lemma pledge_loop_flow (cycles : list Cycle) :
  snd (pledge_loop cycles) = if existsb stops cycles then Return else Continue.
Proof.
  induction cycles as [|c cycles IH]; [reflexivity|].
  rewrite pledge_loop_cons. cbn [existsb].
  destruct (stops c); [reflexivity|]. exact IH.
Qed.

(** The loop ends only by cancellation or by a failed capacity query:
    it has returned exactly when some turn was one of the two; a failed
    submission or a turn without free capacity never ends it. *)
Theorem pledge_loop_ends_only_on_cancel_or_query_error (cycles : list Cycle) :
  snd (pledge_loop cycles) = if existsb stops cycles then Return else Continue.
Proof. exact (pledge_loop_flow cycles). Qed.

(** Whatever the outside answers, the goroutine asks for capacity at most
    once per turn and submits at most once per query. *)
Theorem pledge_calls_bounded (w_GetStorageMinerAPI : option error) (cycles : list Cycle) :
  (submissions (pledge w_GetStorageMinerAPI cycles)
   <= queries (pledge w_GetStorageMinerAPI cycles)
   <= List.length cycles)%nat.
Proof.
  assert (Hloop : (submissions (fst (pledge_loop cycles))
                   <= queries (fst (pledge_loop cycles))
                   <= List.length cycles)%nat).
  { induction cycles as [|c cycles IH]; [cbn; lia|].
    rewrite pledge_loop_cons.
    destruct (pledge_cycle_counts c) as (Hc & _).
    destruct (stops c); cbn [fst List.length].
    - lia.
    - unfold queries, submissions in *. rewrite !filter_length_app. lia. }
  unfold pledge. destruct w_GetStorageMinerAPI as [err|]; [cbn; lia|].
  destruct (pledge_loop cycles) as [evs fl]. cbn [fst] in Hloop.
  unfold queries, submissions in *.
  rewrite !filter_length_app. destruct fl; cbn; lia.
Qed.

(** As long as no turn is cancelled and no query fails, the loop keeps
    polling: one query per turn, one submission per turn with free
    capacity, whether or not the submissions succeed. *)
Theorem pledge_loop_keeps_polling (cycles : list Cycle) :
  existsb stops cycles = false ->
  snd (pledge_loop cycles) = Continue
  /\ queries (fst (pledge_loop cycles)) = List.length cycles
  /\ submissions (fst (pledge_loop cycles)) = List.length (filter submits cycles).
Proof.
  induction cycles as [|c cycles IH]; [intros _; repeat split|].
  cbn [existsb]. intros H. apply orb_false_iff in H. destruct H as [Hc Hrest].
  destruct (IH Hrest) as (Hfl & Hq & Hs).
  rewrite pledge_loop_cons, Hc. cbn [fst snd].
  destruct (pledge_cycle_counts c) as (_ & _ & _ & Hcount).
  destruct (Hcount Hc) as [Hq1 Hs1].
  unfold queries, submissions in *. rewrite !filter_length_app.
  split; [exact Hfl|]. split.
  - rewrite Hq1, Hq. reflexivity.
  - rewrite Hs1, Hs. cbn [filter]. destruct (submits c); reflexivity.
Qed.

Lemma pledge_loop_keeps_polling_witness :
  snd (pledge_loop [cycle_ok; cycle_submit_fails; cycle_busy]) = Continue
  /\ queries (fst (pledge_loop [cycle_ok; cycle_submit_fails; cycle_busy])) = 3%nat
  /\ submissions (fst (pledge_loop [cycle_ok; cycle_submit_fails; cycle_busy])) = 2%nat.
Proof.
  exact (pledge_loop_keeps_polling [cycle_ok; cycle_submit_fails; cycle_busy] eq_refl).
Defined.

(** Cancellation observed in the [select] ends the loop with the log line
    "End pledge sector": no capacity query and no submission is made in
    that turn or after it. *)
Theorem pledge_loop_cancelled (pre post : list Cycle) (c : Cycle) :
  snd (pledge_loop pre) = Continue ->
  c_select c = ctx_Done ->
  pledge_loop (pre ++ c :: post) =
    ((fst (pledge_loop pre) ++ [Log Info "End pledge sector" []])%list, Return)
  /\ queries (fst (pledge_loop (pre ++ c :: post))) = queries (fst (pledge_loop pre))
  /\ submissions (fst (pledge_loop (pre ++ c :: post)))
     = submissions (fst (pledge_loop pre))
  /\ pledge None (pre ++ c :: post) =
       ([Log Info "Begin pledge sector" []; GetStorageMinerAPI]
        ++ fst (pledge_loop pre)
        ++ [Log Info "End pledge sector" []; closer])%list.
Proof.
  intros Hpre Hsel.
  assert (Hc : pledge_cycle c = ([Log Info "End pledge sector" []], Return)).
  { unfold pledge_cycle. rewrite Hsel. reflexivity. }
  assert (Hloop : pledge_loop (pre ++ c :: post) =
                  ((fst (pledge_loop pre) ++ [Log Info "End pledge sector" []])%list,
                   Return)).
  { rewrite (pledge_loop_app pre (c :: post) Hpre).
    rewrite pledge_loop_return by (rewrite Hc; reflexivity).
    rewrite Hc. reflexivity. }
  split; [exact Hloop|].
  unfold pledge. rewrite Hloop. cbn [fst]. unfold queries, submissions.
  rewrite !filter_length_app. cbn. repeat split; try lia.
  rewrite <- app_assoc. reflexivity.
Qed.

Lemma pledge_loop_cancelled_witness :
  pledge None [cycle_ok; cycle_cancelled; cycle_ok] =
    ([Log Info "Begin pledge sector" []; GetStorageMinerAPI]
     ++ fst (pledge_loop [cycle_ok])
     ++ [Log Info "End pledge sector" []; closer])%list
  /\ queries (fst (pledge_loop [cycle_ok; cycle_cancelled; cycle_ok])) = 1%nat.
Proof.
  destruct (pledge_loop_cancelled [cycle_ok] [cycle_ok] cycle_cancelled eq_refl eq_refl)
    as (_ & Hq & _ & Hp).
  split; [exact Hp | exact Hq].
Defined.

Lemma pledge_loop_no_closer (cycles : list Cycle) :
  filter is_closer (fst (pledge_loop cycles)) = [].
Proof.
  induction cycles as [|c cycles IH]; [reflexivity|].
  rewrite pledge_loop_cons.
  destruct (pledge_cycle_counts c) as (_ & Hc & _).
  destruct (stops c); cbn [fst]; [exact Hc|].
  rewrite filter_app, Hc, IH. reflexivity.
Qed.

(** The miner API client is closed exactly when it was obtained and the
    loop has returned, once, as the goroutine's last action; when
    [GetStorageMinerAPI] fails the goroutine only logs the error: it makes
    no query and closes nothing. *)
Theorem pledge_closer_deferred (w_GetStorageMinerAPI : option error) (cycles : list Cycle) :
  match w_GetStorageMinerAPI with
  | Some err =>
      pledge w_GetStorageMinerAPI cycles =
        [Log Info "Begin pledge sector" []; GetStorageMinerAPI;
         Log Error_ "Pledge: GetStorageMinerAPI fail: %w" [AError err]]
  | None =>
      if existsb stops cycles
      then filter is_closer (pledge w_GetStorageMinerAPI cycles) = [closer]
           /\ last (pledge w_GetStorageMinerAPI cycles) GetStorageMinerAPI = closer
      else filter is_closer (pledge w_GetStorageMinerAPI cycles) = []
  end.
Proof.
  destruct w_GetStorageMinerAPI as [err|]; [reflexivity|].
  unfold pledge.
  pose proof (pledge_loop_flow cycles) as Hfl.
  pose proof (pledge_loop_no_closer cycles) as Hno.
  destruct (pledge_loop cycles) as [evs fl]. cbn [fst snd] in *.
  destruct (existsb stops cycles); subst fl.
  - split.
    + cbn. rewrite filter_app, Hno. reflexivity.
    + rewrite app_assoc. apply last_last.
  - cbn. rewrite app_nil_r. exact Hno.
Qed.

(** ** More on the shutdown goroutine *)

(** However many signals arrive, the node is stopped once and the server
    is shut down once; without a signal neither is called. *)
Theorem shutdown_runs_once (sigChan : list Signal) (w : ShutdownWorld) :
  List.length (filter is_NodeStop (shutdown sigChan w))
    = match sigChan with [] => 0 | _ :: _ => 1 end%nat
  /\ List.length (filter is_SrvShutdown (shutdown sigChan w))
     = match sigChan with [] => 0 | _ :: _ => 1 end%nat.
Proof.
  destruct sigChan as [|sig rest]; [split; reflexivity|].
  unfold shutdown.
  destruct (w_stop w), (w_Shutdown w); split; reflexivity.
Qed.

(** The error of [srv.Shutdown] is logged exactly when it occurred, and
    likewise the error of the node's stop. *)
Theorem shutdown_logs_each_error
  (sig : Signal) (rest : list Signal) (w : ShutdownWorld) (err : error) :
  (In (Log Error_ "shutting down RPC server failed: %s" [AError err])
      (shutdown (sig :: rest) w) <-> w_Shutdown w = Some err)
  /\ (In (Log Error_ "graceful shutting down failed: %s" [AError err])
         (shutdown (sig :: rest) w) <-> w_stop w = Some err).
Proof.
  unfold shutdown.
  destruct (w_stop w) as [e1|], (w_Shutdown w) as [e2|]; cbn;
    split; split; intros H;
    match type of H with
    | _ = Some _ => try discriminate H; injection H as ->; auto 10
    | _ => repeat (destruct H as [H|H]; try discriminate H);
           try contradiction; injection H as ->; reflexivity
    end.
Qed.

(** ** More on the router *)

(** The streaming route is a prefix route and the RPC route an exact one:
    every path that starts with [/remote], [/remote] itself and
    [/remotefoo] included, is matched to the streaming handler, while a
    path that extends [/rpc/v0], such as [/rpc/v0/], is matched to the
    default mux and not to the RPC server. *)
Theorem mux_prefix_and_exact_routes (rest : string) :
  mux.Match mux ("/remote" ++ rest) = Some ServeRemote
  /\ (rest <> "" -> mux.Match mux ("/rpc/v0" ++ rest) = Some DefaultServeMux)
  /\ (rest = "" -> mux.Match mux ("/rpc/v0" ++ rest) = Some rpcServer).
Proof.
  split; [reflexivity|]. split.
  - intros Hne. destruct rest as [|a rest]; [contradiction|]. reflexivity.
  - intros ->. reflexivity.
Qed.

Lemma mux_prefix_and_exact_routes_witness :
  mux.Match mux "/remote/" = Some ServeRemote
  /\ mux.Match mux "/rpc/v0/" = Some DefaultServeMux.
Proof.
  destruct (mux_prefix_and_exact_routes "/") as (Hremote & Hlong & _).
  split; [exact Hremote | apply Hlong; discriminate].
Defined.

(** What a matched handler says about the path: the RPC server is matched
    for [/rpc/v0] alone, the streaming handler only under [/remote], the
    default mux only for the other paths. *)
Theorem mux_match_sound (path : string) (h : Handler) :
  mux.Match mux path = Some h ->
  match h with
  | rpcServer => path = "/rpc/v0"
  | ServeRemote => Go.HasPrefix path "/remote" = true /\ path <> "/rpc/v0"
  | DefaultServeMux =>
      Go.HasPrefix path "/" = true
      /\ Go.HasPrefix path "/remote" = false /\ path <> "/rpc/v0"
  end.
Proof.
  unfold mux. cbn [mux.Match mux.matches mux.matcher mux.handler].
  destruct (String.eqb_spec path "/rpc/v0") as [->|Hne].
  - intros [= <-]. reflexivity.
  - destruct (Go.HasPrefix path "/remote") eqn:Hr.
    + intros [= <-]. split; [reflexivity | exact Hne].
    + destruct (Go.HasPrefix path "/") eqn:Hs; [|discriminate].
      intros [= <-]. repeat split; assumption.
Qed.

Lemma mux_match_sound_witness :
  Go.HasPrefix "/debug/pprof/heap" "/remote" = false.
Proof.
  exact (proj1 (proj2 (mux_match_sound "/debug/pprof/heap" DefaultServeMux eq_refl))).
Defined.

(** ** More on the bootstrap *)

Lemma Action_trace_shape (cctx : Context) (w : World) (persisted : option Multiaddr) :
  let tr := trace (snd (run cctx w persisted)) in
  hd_error tr = Some (if enable_gpu_proving cctx then GetFullNodeAPI
                      else Setenv "BELLMAN_NO_GPU" "true")
  /\ filter is_Setenv tr =
     (if enable_gpu_proving cctx then [] else [Setenv "BELLMAN_NO_GPU" "true"])
  /\ filter is_ncloser tr =
     match w_GetFullNodeAPI w with None => [ncloser] | Some _ => [] end
  /\ last tr GetFullNodeAPI =
     match w_GetFullNodeAPI w with None => ncloser | Some _ => GetFullNodeAPI end
  /\ filter is_lifecycle tr =
     match bootstrap_failure cctx w persisted, resolved_endpoint cctx persisted with
     | None, Some endpoint =>
         [Go_ ShutdownTask; SignalNotify]
         ++ (if pledge_sector cctx then [Go_ PledgeTask] else [])
         ++ [Serve {| lst_addr := endpoint |}]
     | _, _ => []
     end%list
  /\ existsb (fun e => is_NodeStop e || is_SrvShutdown e) tr = false.
Proof. bootstrap_cases cctx w persisted close_eqs. Qed.

(** Case analysis on the answers, with the run named once: [close] is
    tried on the branches in which the run has ended. *)
Ltac at_end close :=
  lazymatch goal with
  | |- context [match _ with _ => _ end] => idtac
  | _ => close
  end.

Ltac answer_eq close x :=
  match goal with
  | |- context [match x with _ => _ end] => destruct x eqn:?; cbn; at_end close
  | _ => idtac
  end.

Ltac answer_ close x :=
  match goal with
  | |- context [match x with _ => _ end] => destruct x; cbn; at_end close
  | _ => idtac
  end.

Ltac run_cases cctx w persisted close :=
  destruct w as [bv gfa ver sw nfs ex nma sae con ape nal nc lis srv];
  destruct cctx as [gpu ns ps ap path];
  unfold api_endpoint;
  unfold_run;
  destruct gpu, ns, ps, ap as [port|]; cbn;
  answer_ close gfa; answer_ close ver;
  try match goal with
      | |- context [negb (?a =? bv)] => destruct (a =? bv); cbn; at_end close
      end;
  answer_ close sw; answer_ close nfs; answer_ close ex;
  try match goal with
      | |- context [negb ?b] => is_var b; destruct b; cbn; at_end close
      end;
  try match goal with
      | |- context [match nma ?s with _ => _ end] => answer_eq close (nma s)
      end;
  answer_ close sae; answer_ close con; answer_ close ape;
  try (destruct persisted as [ma|]; cbn; at_end close);
  answer_ close nal; answer_ close nc;
  try match goal with
      | |- context [match lis ?m with _ => _ end] => answer_eq close (lis m)
      end;
  answer_ close srv.

Ltac close_calls :=
  let Hrun := fresh "Hrun" in
  intros Hrun; injection Hrun as <- <-; cbn;
  unfold not; repeat (split || intro);
  repeat match goal with
         | H : _ \/ _ |- _ => destruct H as [H|H]
         | H : False |- _ => contradiction H
         | H : @eq Event _ _ |- _ =>
             first [discriminate H | progress (injection H as H; subst) | clear H]
         end;
  first [reflexivity | congruence].

Lemma Action_trace_calls
  (cctx : Context) (w : World) (persisted : option Multiaddr)
  (r : result unit) (s : State) :
  run cctx w persisted = (r, s) ->
  (In SyncWait (trace s) -> nosync cctx = false)
  /\ (forall err, In SyncWait (trace s) -> w_SyncWait w = Some err ->
      r = Err (Errorf "sync wait: %w" [AError err])
      /\ ~ In (NewFS (FlagStorageRepo cctx)) (trace s))
  /\ (forall remoteAddrs, In (NetConnect remoteAddrs) (trace s) ->
      w_NetAddrsListen w = Ok remoteAddrs)
  /\ (forall endpoint err, In (Listen endpoint) (trace s) ->
      w_Listen w endpoint = Some err ->
      r = Err (Errorf "could not listen: %w" [AError err])
      /\ filter is_lifecycle (trace s) = [])
  /\ (forall ma, In (NewMultiaddr ma) (trace s) -> api_endpoint cctx = Some ma)
  /\ (forall ma, In (SetAPIEndpoint ma) (trace s) ->
      api_endpoint cctx = Some ma /\ w_NewMultiaddr w ma = None).
Proof. run_cases cctx w persisted ltac:(try solve [close_calls]). Qed.

Lemma string_app_nil_r (s : string) : s ++ "" = s.
Proof. induction s as [|a s IH]; simpl; [reflexivity | rewrite IH; reflexivity]. Qed.

(** With GPU proving disabled the command sets [BELLMAN_NO_GPU=true]
    before anything else, the connection to the full node included;
    with it enabled the environment is never written. *)
Theorem gpu_switch_set_first
  (cctx : Context) (w : World) (persisted : option Multiaddr) :
  hd_error (trace (snd (run cctx w persisted))) =
    Some (if enable_gpu_proving cctx then GetFullNodeAPI
          else Setenv "BELLMAN_NO_GPU" "true")
  /\ filter is_Setenv (trace (snd (run cctx w persisted))) =
     (if enable_gpu_proving cctx then [] else [Setenv "BELLMAN_NO_GPU" "true"]).
Proof.
  destruct (Action_trace_shape cctx w persisted) as (Hhd & Henv & _).
  split; [exact Hhd | exact Henv].
Qed.

(** The full node's client is closed on every return path after it was
    obtained, once and as the command's last action; when
    [GetFullNodeAPI] fails nothing is closed. *)
Theorem ncloser_deferred
  (cctx : Context) (w : World) (persisted : option Multiaddr) :
  filter is_ncloser (trace (snd (run cctx w persisted))) =
    match w_GetFullNodeAPI w with None => [ncloser] | Some _ => [] end
  /\ last (trace (snd (run cctx w persisted))) GetFullNodeAPI =
     match w_GetFullNodeAPI w with None => ncloser | Some _ => GetFullNodeAPI end.
Proof.
  destruct (Action_trace_shape cctx w persisted) as (_ & _ & Hc & Hl & _).
  split; [exact Hc | exact Hl].
Qed.

(** The goroutines are started only once the bootstrap has succeeded, in
    this order: the shutdown goroutine, the signal registration, the
    pledge goroutine if [pledge-sector] is set, then the serve loop on the
    listener of the resolved endpoint. *)
Theorem goroutines_start_after_bootstrap
  (cctx : Context) (w : World) (persisted : option Multiaddr) :
  filter is_lifecycle (trace (snd (run cctx w persisted))) =
    match bootstrap_failure cctx w persisted, resolved_endpoint cctx persisted with
    | None, Some endpoint =>
        [Go_ ShutdownTask; SignalNotify]
        ++ (if pledge_sector cctx then [Go_ PledgeTask] else [])
        ++ [Serve {| lst_addr := endpoint |}]
    | _, _ => []
    end%list.
Proof.
  destruct (Action_trace_shape cctx w persisted) as (_ & _ & _ & _ & Hl & _).
  exact Hl.
Qed.

(** The command itself never calls the node's stop function nor the
    server's shutdown: a bootstrap step that fails after [node.New]
    returns its error with the node left running. *)
Theorem Action_never_stops_node
  (cctx : Context) (w : World) (persisted : option Multiaddr) :
  existsb (fun e => is_NodeStop e || is_SrvShutdown e)
          (trace (snd (run cctx w persisted))) = false.
Proof.
  destruct (Action_trace_shape cctx w persisted) as (_ & _ & _ & _ & _ & Hn).
  exact Hn.
Qed.

(** With [nosync] the full node's sync status is never waited for. *)
Theorem nosync_skips_sync_wait
  (cctx : Context) (w : World) (persisted : option Multiaddr) :
  nosync cctx = true ->
  ~ In SyncWait (trace (snd (run cctx w persisted))).
Proof.
  intros Hns Hin.
  destruct (run cctx w persisted) as [r s] eqn:E.
  destruct (Action_trace_calls cctx w persisted r s E) as (Hsync & _).
  cbn [snd] in Hin. rewrite (Hsync Hin) in Hns. discriminate Hns.
Qed.

Lemma nosync_skips_sync_wait_witness :
  ~ In SyncWait (trace (snd (run api_9000 sync_fails_world None))).
Proof.
  exact (nosync_skips_sync_wait api_9000 sync_fails_world None eq_refl).
Defined.

(** A failed sync wait ends the bootstrap: the command returns the error
    wrapped as "sync wait: ..." and the repository is not opened. *)
Theorem sync_wait_failure_aborts
  (Version_String : Version -> string)
  (cctx : Context) (w : World) (persisted : option Multiaddr) (err : error) :
  In SyncWait (trace (snd (run cctx w persisted))) ->
  w_SyncWait w = Some err ->
  fst (run cctx w persisted) = Err (Errorf "sync wait: %w" [AError err])
  /\ Error Version_String (Errorf "sync wait: %w" [AError err])
     = "sync wait: " ++ Error Version_String err
  /\ ~ In (NewFS (FlagStorageRepo cctx)) (trace (snd (run cctx w persisted))).
Proof.
  intros Hin Herr.
  destruct (run cctx w persisted) as [r s] eqn:E.
  destruct (Action_trace_calls cctx w persisted r s E) as (_ & Hsync & _).
  cbn [fst snd] in *. destruct (Hsync err Hin Herr) as [Hr Hfs].
  split; [exact Hr|]. split; [|exact Hfs].
  cbn. rewrite string_app_nil_r. reflexivity.
Qed.

Lemma sync_wait_failure_aborts_witness :
  fst (run default_flags sync_fails_world None)
    = Err (Errorf "sync wait: %w" [AError io_error])
  /\ Error decimal_version (Errorf "sync wait: %w" [AError io_error])
     = "sync wait: " ++ Error decimal_version io_error
  /\ ~ In (NewFS (FlagStorageRepo default_flags))
          (trace (snd (run default_flags sync_fails_world None))).
Proof.
  refine (sync_wait_failure_aborts decimal_version default_flags sync_fails_world None
            io_error _ eq_refl).
  vm_compute. repeat (first [left; reflexivity | right]).
Defined.

(** The miner is connected to exactly the addresses the full node
    reported: [NetConnect] is called only after [NetAddrsListen]
    succeeded, with its result. *)
Theorem NetConnect_uses_reported_addresses
  (cctx : Context) (w : World) (persisted : option Multiaddr)
  (remoteAddrs : list Multiaddr) :
  In (NetConnect remoteAddrs) (trace (snd (run cctx w persisted))) ->
  w_NetAddrsListen w = Ok remoteAddrs.
Proof.
  intros Hin.
  destruct (run cctx w persisted) as [r s] eqn:E.
  destruct (Action_trace_calls cctx w persisted r s E) as (_ & _ & Hc & _).
  exact (Hc remoteAddrs Hin).
Qed.

Lemma NetConnect_uses_reported_addresses_witness :
  w_NetAddrsListen listen_fails_world = Ok ["/ip4/10.0.0.7/tcp/1347"].
Proof.
  refine (NetConnect_uses_reported_addresses api_9000 listen_fails_world None
            ["/ip4/10.0.0.7/tcp/1347"] _).
  vm_compute. repeat (first [left; reflexivity | right]).
Defined.

(** When the listener cannot be opened the command returns the error
    wrapped as "could not listen: ...": no goroutine is started, no signal
    handler is registered and the serve loop is not entered. *)
Theorem listen_failure_aborts
  (Version_String : Version -> string)
  (cctx : Context) (w : World) (persisted : option Multiaddr)
  (endpoint : Multiaddr) (err : error) :
  In (Listen endpoint) (trace (snd (run cctx w persisted))) ->
  w_Listen w endpoint = Some err ->
  fst (run cctx w persisted) = Err (Errorf "could not listen: %w" [AError err])
  /\ Error Version_String (Errorf "could not listen: %w" [AError err])
     = "could not listen: " ++ Error Version_String err
  /\ filter is_lifecycle (trace (snd (run cctx w persisted))) = [].
Proof.
  intros Hin Herr.
  destruct (run cctx w persisted) as [r s] eqn:E.
  destruct (Action_trace_calls cctx w persisted r s E) as (_ & _ & _ & Hl & _).
  cbn [fst snd] in *. destruct (Hl endpoint err Hin Herr) as [Hr Hlife].
  split; [exact Hr|]. split; [|exact Hlife].
  cbn. rewrite string_app_nil_r. reflexivity.
Qed.

Lemma listen_failure_aborts_witness :
  fst (run api_9000 listen_fails_world None)
    = Err (Errorf "could not listen: %w" [AError io_error])
  /\ Error decimal_version (Errorf "could not listen: %w" [AError io_error])
     = "could not listen: " ++ Error decimal_version io_error
  /\ filter is_lifecycle (trace (snd (run api_9000 listen_fails_world None))) = [].
Proof.
  refine (listen_failure_aborts decimal_version api_9000 listen_fails_world None
            "/ip4/127.0.0.1/tcp/9000" io_error _ eq_refl).
  vm_compute. repeat (first [left; reflexivity | right]).
Defined.

(** The only address the command parses and writes to the repository is
    the loopback endpoint of the [api] option: without the option nothing
    is parsed or written (the flag's default port is not used), and the
    endpoint is written only after [NewMultiaddr] accepted it. *)
Theorem override_is_loopback_of_api
  (cctx : Context) (w : World) (persisted : option Multiaddr) (ma : Multiaddr) :
  (In (NewMultiaddr ma) (trace (snd (run cctx w persisted))) ->
   exists port, api cctx = Some port /\ ma = "/ip4/127.0.0.1/tcp/" ++ port)
  /\ (In (SetAPIEndpoint ma) (trace (snd (run cctx w persisted))) ->
      (exists port, api cctx = Some port /\ ma = "/ip4/127.0.0.1/tcp/" ++ port)
      /\ w_NewMultiaddr w ma = None).
Proof.
  destruct (run cctx w persisted) as [r s] eqn:E.
  destruct (Action_trace_calls cctx w persisted r s E) as (_ & _ & _ & _ & Hn & Hs).
  cbn [snd].
  assert (Hapi : api_endpoint cctx = Some ma ->
                 exists port, api cctx = Some port /\ ma = "/ip4/127.0.0.1/tcp/" ++ port).
  { unfold api_endpoint. destruct (api cctx) as [port|]; [|discriminate].
    intros [= <-]. exists port. split; reflexivity. }
  split.
  - intros Hin. apply Hapi, Hn, Hin.
  - intros Hin. destruct (Hs ma Hin) as [Ha Hv]. split; [apply Hapi, Ha | exact Hv].
Qed.

Lemma override_is_loopback_of_api_witness :
  (exists port, api api_9000 = Some port
                /\ "/ip4/127.0.0.1/tcp/9000" = "/ip4/127.0.0.1/tcp/" ++ port)
  /\ w_NewMultiaddr healthy_world "/ip4/127.0.0.1/tcp/9000" = None.
Proof.
  refine (proj2 (override_is_loopback_of_api api_9000 healthy_world None
                   "/ip4/127.0.0.1/tcp/9000") _).
  vm_compute. repeat (first [left; reflexivity | right]).
Defined.

(** The text of the version-mismatch error: the format has no verb for
    its operand, so the local version is printed as an extra operand,
    whatever the remote version was. *)
Lemma version_mismatch_message (Version_String : Version -> string) (w : World) :
  Error Version_String (version_mismatch w) =
    "lotus-daemon API version doesn't match: local: %!(EXTRA api.Version="
    ++ Version_String {| APIVersion := build_APIVersion w |} ++ ")".
Proof. reflexivity. Qed.
